(** * Travel expense tracker: data layer and aggregation engine

    A shallow embedding of [db.js] (the IndexedDB wrapper) and of the
    conversion, validation, aggregation and restore code of the
    application module, followed by the properties of the specification
    that were checked against it.

    Conventions of the embedding:
    - a JS string is a [string]; every character stands for one code unit.
      Case conversion handles the letters A-Z / a-z only;
    - a JS Number is a [number]: either [NaN] or a finite value, kept as an
      exact rational. Binary rounding of the IEEE-754 doubles and the
      infinities are outside the model;
    - an object store with a key path is a [gmap] from the key to the record;
      [put] inserts at the record's own key;
    - a [Map] is an insertion-ordered association list;
    - a transaction works on a private copy of the database and either
      commits the copy or leaves the database as it was. *)

From Stdlib Require Import Ascii QArith Qcanon Qround Lqa Sorted.
From stdpp Require Import gmap strings list fin_maps numbers.

Local Open Scope string_scope.
Local Open Scope Qc_scope.

(** ** JavaScript string primitives *)

Module JsString.

(** White space removed by [String.prototype.trim], in the Latin-1 range. *)
Definition is_ws (a : ascii) : bool :=
  match a with
  | "009" | "010" | "011" | "012" | "013" | " " | "160" => true
  | _ => false
  end%char.

Fixpoint drop_ws (s : string) : string :=
  match s with
  | String a s' => if is_ws a then drop_ws s' else s
  | "" => ""
  end.

(** [s.trim()] *)
Definition trim (s : string) : string :=
  String.rev (drop_ws (String.rev (drop_ws s))).

Fixpoint split_go (sep : ascii) (cur : string) (s : string) : list string :=
  match s with
  | "" => [String.rev cur]
  | String a s' =>
      if Ascii.eqb a sep then String.rev cur :: split_go sep "" s'
      else split_go sep (String a cur) s'
  end.

(** [s.split(sep)] for a separator of one character. *)
Definition split (sep : ascii) (s : string) : list string := split_go sep "" s.

(** [s.slice(0, n)] *)
Definition slice0 (n : nat) (s : string) : string := String.substring 0 n s.

Definition upper_char (a : ascii) : ascii :=
  let n := nat_of_ascii a in
  if bool_decide (97 ≤ n ≤ 122)%nat then ascii_of_nat (n - 32) else a.

Definition lower_char (a : ascii) : ascii :=
  let n := nat_of_ascii a in
  if bool_decide (65 ≤ n ≤ 90)%nat then ascii_of_nat (n + 32) else a.

Fixpoint map_chars (f : ascii → ascii) (s : string) : string :=
  match s with
  | "" => ""
  | String a s' => String (f a) (map_chars f s')
  end.

Definition toUpperCase : string → string := map_chars upper_char.
Definition toLowerCase : string → string := map_chars lower_char.

(** [s.includes(t)] *)
Fixpoint includes (s t : string) : bool :=
  String.prefix t s ||
  match s with
  | "" => false
  | String _ s' => includes s' t
  end.

(** [Boolean(s)]: only the empty string is falsy. *)
Definition truthy (s : string) : bool := negb (String.eqb s "").

(** [l.join(sep)] *)
Definition join (sep : string) (l : list string) : string := String.concat sep l.

End JsString.

(** ** JavaScript numbers *)

Inductive number : Type :=
  | NaN
  | Num (q : Qc).

Global Instance number_eq_dec : EqDecision number.
Proof. solve_decision. Defined.

Definition Qc_100 : Qc := Qc_of_Z 100.

(** [Math.round] on a finite value: the nearest integer, a tie going to +∞. *)
Definition round_Qc (x : Qc) : Qc := Qc_of_Z (Qfloor (this x + (1 # 2))%Q).

Definition Math_round (x : number) : number :=
  match x with
  | Num q => Num (round_Qc q)
  | NaN => NaN
  end.

Definition num_mul (a b : number) : number :=
  match a, b with
  | Num x, Num y => Num (x * y)
  | _, _ => NaN
  end.

(** Division by a constant that is not zero. *)
Definition num_div_by (a : number) (d : Qc) : number :=
  match a with
  | Num x => Num (x / d)
  | NaN => NaN
  end.

(** [x > 0]; false on [NaN]. *)
Definition num_gt0 (a : number) : bool :=
  match a with
  | Num x => bool_decide (0 < x)
  | NaN => false
  end.

(** [Number(x || 0)]: [NaN] and [0] are falsy, so both give [0]. *)
Definition num_or0 (a : number) : Qc :=
  match a with
  | Num x => x
  | NaN => 0
  end.

(** ** Conversion and rounding (application module) *)


Definition roundBaseAmount (raw : number) (baseCurrency : string) : number :=
  if decide (baseCurrency = "JPY") then Math_round raw
  else num_div_by (Math_round (num_mul raw (Num Qc_100))) Qc_100.

(** ** Data model *)

Module Trip.
Record t : Type := mk {
  id : string;
  name : string;
  startDate : string;
  endDate : string;
  baseCurrency : string;
  currencies : list string;
  budgetEnabled : bool;
  budgetAmountBase : number;
  dailyBudgetAmountBase : option number;
  createdAt : Z
}.

Definition with_createdAt (c : Z) (x : t) : t :=
  mk (id x) (name x) (startDate x) (endDate x) (baseCurrency x) (currencies x)
     (budgetEnabled x) (budgetAmountBase x) (dailyBudgetAmountBase x) c.
End Trip.

Module Expense.
Record t : Type := mk {
  id : string;
  tripId : string;
  dateTime : string;
  amountOriginal : number;
  currency : string;
  fxRateToBase : number;
  amountBase : number;
  category : string;
  payment : string;
  note : string;
  paidBy : string;
  location : string;
  tags : list string;
  createdAt : Z;
  updatedAt : Z
}.

Definition with_createdAt (c : Z) (x : t) : t :=
  mk (id x) (tripId x) (dateTime x) (amountOriginal x) (currency x)
     (fxRateToBase x) (amountBase x) (category x) (payment x) (note x)
     (paidBy x) (location x) (tags x) c (updatedAt x).
End Expense.

Module Settings.
Record t : Type := mk {
  categories : list string;
  paymentMethods : list string
}.
End Settings.

(** The four object stores of [openDb]. [meta] and [settings] have key path
    [key] and hold [{key, value}] rows; [trips] and [expenses] have key path
    [id]. *)
Record Db : Type := mkDb {
  meta : gmap string string;
  settings : gmap string (list string);
  trips : gmap string Trip.t;
  expenses : gmap string Expense.t
}.

Definition set_meta (f : gmap string string → gmap string string) (d : Db) : Db :=
  mkDb (f (meta d)) (settings d) (trips d) (expenses d).
Definition set_settings (f : gmap string (list string) → gmap string (list string))
    (d : Db) : Db :=
  mkDb (meta d) (f (settings d)) (trips d) (expenses d).
Definition set_trips (f : gmap string Trip.t → gmap string Trip.t) (d : Db) : Db :=
  mkDb (meta d) (settings d) (f (trips d)) (expenses d).
Definition set_expenses (f : gmap string Expense.t → gmap string Expense.t)
    (d : Db) : Db :=
  mkDb (meta d) (settings d) (trips d) (f (expenses d)).

Definition SCHEMA_VERSION : string := "1.0.0".

Definition DEFAULT_SETTINGS : Settings.t :=
  Settings.mk
    ["Flights"; "Lodging"; "Local transport"; "Food & drinks"; "Attractions";
     "Shopping"; "SIM/Internet"; "Fees (ATM/baggage/etc.)"; "Misc"; "Souvenirs"]
    ["Cash"; "Wise"; "Apple Pay"; "Other"].

(** ** Transactions (db.js) *)

Inductive StoreName : Type := Meta | SettingsStore | Trips | Expenses.

Global Instance StoreName_eq_dec : EqDecision StoreName.
Proof. solve_decision. Defined.

Inductive Mode : Type := readonly | readwrite.

Record TxEnv : Type := mkEnv { tx_stores : list StoreName; tx_mode : Mode }.

(** The storage engine may report an error on some request: [Some n] lets
    [n] more requests succeed and fails the next one; [None] never fails. *)
Definition fault : Type := option nat.

Definition tick (f : fault) : option fault :=
  match f with
  | None => Some None
  | Some O => None
  | Some (S n) => Some (Some n)
  end.

(** What a transaction handler can come to:
    - [Done]: it returned, having placed its requests on the working copy;
    - [Failed]: one of its requests failed, which aborts the transaction;
    - [Thrown]: it threw by itself. Nothing aborts the transaction then, so
      the requests already placed stay in it. *)
Inductive TxRes (A : Type) : Type :=
  | Done (a : A) (d : Db) (f : fault)
  | Failed
  | Thrown (d : Db) (f : fault).
Arguments Done {A} a d f.
Arguments Failed {A}.
Arguments Thrown {A} d f.

Definition Tx (A : Type) : Type := TxEnv → Db → fault → TxRes A.

Definition tx_ret {A} (a : A) : Tx A := λ _ d f, Done a d f.

Definition tx_bind {A B} (m : Tx A) (k : A → Tx B) : Tx B :=
  λ env d f,
    match m env d f with
    | Done a d' f' => k a env d' f'
    | Failed => Failed
    | Thrown d' f' => Thrown d' f'
    end.

Definition tx_throw {A} : Tx A := λ _ d f, Thrown d f.

(** Looking at the working copy without a request of its own. *)
Definition tx_peek {A} (g : Db → A) : Tx A := λ _ d f, Done (g d) d f.

Notation "'do' x <- m ; k" := (tx_bind m (λ x, k))
  (at level 10, x name, m at level 100, k at level 200, only parsing).
Notation "'exec' m ; k" := (tx_bind m (λ _, k))
  (at level 10, m at level 100, k at level 200, only parsing).

(** A read request on a store ([get], [getAll], a cursor step).
    [tx.objectStore] throws for a store outside the transaction's scope. *)
Definition req_read {A} (s : StoreName) (g : Db → A) : Tx A :=
  λ env d f,
    if bool_decide (s ∈ tx_stores env) then
      match tick f with
      | Some f' => Done (g d) d f'
      | None => Failed
      end
    else Thrown d f.

(** A write request ([put], [delete], [clear]); it throws in a read-only
    transaction. *)
Definition req_write (s : StoreName) (u : Db → Db) : Tx unit :=
  λ env d f,
    if bool_decide (s ∈ tx_stores env) then
      match tx_mode env with
      | readonly => Thrown d f
      | readwrite =>
          match tick f with
          | Some f' => Done tt (u d) f'
          | None => Failed
          end
      end
    else Thrown d f.

(** The outcome of an awaited call. *)
Inductive Result (A : Type) : Type :=
  | Ok (a : A)
  | Rejected.
Arguments Ok {A} a.
Arguments Rejected {A}.

(** [db.transaction(...)] followed by [txDone]: the working copy becomes the
    database when the transaction completes, and is dropped when it aborts. *)
Definition commit {A} (r : Result A) (old new : Db) (f : fault)
    : Result A * Db * fault :=
  match tick f with
  | Some f' => (r, new, f')
  | None => (Rejected, old, None)
  end.

Definition runTx {A} (storeNames : list StoreName) (mode : Mode) (handler : Tx A)
    (d : Db) (f : fault) : Result A * Db * fault :=
  match handler (mkEnv storeNames mode) d f with
  | Done a d' f' => commit (Ok a) d d' f'
  | Failed => (Rejected, d, None)
  | Thrown d' f' => commit Rejected d d' f'
  end.

(** *** Bootstrap *)

Definition seed_if_absent {V} (s : StoreName) (get : Db → gmap string V)
    (set : (gmap string V → gmap string V) → Db → Db) (key : string) (v : V)
    : Tx unit :=
  do row <- req_read s (λ d, get d !! key);
  match row with
  | Some _ => tx_ret tt
  | None => req_write s (set <[key := v]>)
  end.

Definition initializeDb (d : Db) (f : fault) : Result unit * Db * fault :=
  runTx [Meta; SettingsStore] readwrite
    (exec seed_if_absent Meta meta set_meta "schemaVersion" SCHEMA_VERSION;
     exec seed_if_absent SettingsStore settings set_settings "categories"
       (Settings.categories DEFAULT_SETTINGS);
     seed_if_absent SettingsStore settings set_settings "paymentMethods"
       (Settings.paymentMethods DEFAULT_SETTINGS))
    d f.

(** *** Settings *)

Definition getSchemaVersion : Db → fault → Result string * Db * fault :=
  runTx [Meta] readonly
    (do row <- req_read Meta (λ d, meta d !! "schemaVersion");
     tx_ret (default SCHEMA_VERSION row)).

(** [row?.value || default]: an empty array is truthy and is kept. *)
Definition getSettings : Db → fault → Result Settings.t * Db * fault :=
  runTx [SettingsStore] readonly
    (do categories <- req_read SettingsStore (λ d, settings d !! "categories");
     do paymentMethods <- req_read SettingsStore (λ d, settings d !! "paymentMethods");
     tx_ret (Settings.mk
               (default (Settings.categories DEFAULT_SETTINGS) categories)
               (default (Settings.paymentMethods DEFAULT_SETTINGS) paymentMethods))).

Definition saveSettings (s : Settings.t) : Db → fault → Result unit * Db * fault :=
  runTx [SettingsStore] readwrite
    (exec req_write SettingsStore
            (set_settings <["categories" := Settings.categories s]>);
     req_write SettingsStore
       (set_settings <["paymentMethods" := Settings.paymentMethods s]>)).

(** *** Trips *)

Definition getTrips : Db → fault → Result (list Trip.t) * Db * fault :=
  runTx [Trips] readonly (req_read Trips (λ d, (map_to_list (trips d)).*2)).

Definition getTripById (id : string) : Db → fault → Result (option Trip.t) * Db * fault :=
  runTx [Trips] readonly (req_read Trips (λ d, trips d !! id)).

Definition upsertTrip (trip : Trip.t) : Db → fault → Result unit * Db * fault :=
  runTx [Trips] readwrite (req_write Trips (set_trips <[Trip.id trip := trip]>)).

(** The primary keys under one key of the [tripId] index. *)
Definition index_tripId (tripId : string) (d : Db) : list string :=
  (map_to_list (filter (λ kv, Expense.tripId kv.2 = tripId) (expenses d))).*1.

(** The cursor loop of [deleteTripCascade]: every arrival of the cursor is a
    request, and so is every [cursor.delete()]; the last request brings the
    null cursor. *)
Fixpoint cursor_delete_all (keys : list string) : Tx unit :=
  match keys with
  | [] => req_read Expenses (λ _, tt)
  | k :: rest =>
      exec req_read Expenses (λ _, tt);
      exec req_write Expenses (set_expenses (delete k));
      cursor_delete_all rest
  end.

Definition deleteTripCascade (tripId : string)
    : Db → fault → Result unit * Db * fault :=
  runTx [Trips; Expenses] readwrite
    (exec req_write Trips (set_trips (delete tripId));
     do keys <- tx_peek (index_tripId tripId);
     cursor_delete_all keys).

(** *** Expenses *)

Definition getExpensesByTrip (tripId : string)
    : Db → fault → Result (list Expense.t) * Db * fault :=
  runTx [Expenses] readonly
    (req_read Expenses
       (λ d, (map_to_list (filter (λ kv, Expense.tripId kv.2 = tripId) (expenses d))).*2)).

Definition getAllExpenses : Db → fault → Result (list Expense.t) * Db * fault :=
  runTx [Expenses] readonly (req_read Expenses (λ d, (map_to_list (expenses d)).*2)).

Definition getExpenseById (id : string)
    : Db → fault → Result (option Expense.t) * Db * fault :=
  runTx [Expenses] readonly (req_read Expenses (λ d, expenses d !! id)).

Definition upsertExpense (e : Expense.t) : Db → fault → Result unit * Db * fault :=
  runTx [Expenses] readwrite
    (req_write Expenses (set_expenses <[Expense.id e := e]>)).

Definition deleteExpense (id : string) : Db → fault → Result unit * Db * fault :=
  runTx [Expenses] readwrite (req_write Expenses (set_expenses (delete id))).

(** *** Backup payload and full restore *)

Module Payload.
(** A field of the parsed JSON that should hold an array. *)
Inductive field (A : Type) : Type :=
  | Falsy                 (* absent, [null], or another falsy value *)
  | NotArray              (* a truthy value that is not an array *)
  | Arr (l : list A).
Arguments Falsy {A}.
Arguments NotArray {A}.
Arguments Arr {A} l.

(** [Array.isArray] *)
Definition isArray {A} (x : field A) : bool :=
  match x with
  | Arr _ => true
  | _ => false
  end.

Record config_t : Type := mkConfig {
  categories : option (list string);
  paymentMethods : option (list string)
}.

Record t : Type := mk {
  schemaVersion : option string;
  trips : field Trip.t;
  expenses : field Expense.t;
  config : option config_t
}.
End Payload.

(** [for (const x of (field || [])) body(x)]. A JSON value that is truthy
    and not an array either cannot be iterated or yields values that [put]
    refuses: the loop throws. *)
Fixpoint tx_each {A} (body : A → Tx unit) (l : list A) : Tx unit :=
  match l with
  | [] => tx_ret tt
  | x :: rest => exec body x; tx_each body rest
  end.

Definition tx_for_of {A} (x : Payload.field A) (body : A → Tx unit) : Tx unit :=
  match x with
  | Payload.Falsy => tx_ret tt
  | Payload.NotArray => tx_throw
  | Payload.Arr l => tx_each body l
  end.

(** [s || d] for an optional string. *)
Definition str_or (s : option string) (d : string) : string :=
  match s with
  | Some v => if JsString.truthy v then v else d
  | None => d
  end.

Definition restoreBackup (payload : Payload.t)
    : Db → fault → Result unit * Db * fault :=
  runTx [Trips; Expenses; Meta; SettingsStore] readwrite
    (exec req_write Trips (set_trips (λ _, ∅));
     exec req_write Expenses (set_expenses (λ _, ∅));
     exec req_write Meta (set_meta (λ _, ∅));
     exec req_write SettingsStore (set_settings (λ _, ∅));
     exec req_write Meta
       (set_meta <["schemaVersion" :=
                     str_or (Payload.schemaVersion payload) SCHEMA_VERSION]>);
     let categories :=
       default (Settings.categories DEFAULT_SETTINGS)
               (Payload.config payload ≫= Payload.categories) in
     let payments :=
       default (Settings.paymentMethods DEFAULT_SETTINGS)
               (Payload.config payload ≫= Payload.paymentMethods) in
     exec req_write SettingsStore (set_settings <["categories" := categories]>);
     exec req_write SettingsStore (set_settings <["paymentMethods" := payments]>);
     exec tx_for_of (Payload.trips payload)
       (λ trip, req_write Trips (set_trips <[Trip.id trip := trip]>));
     tx_for_of (Payload.expenses payload)
       (λ expense, req_write Expenses (set_expenses <[Expense.id expense := expense]>))).

(** ** Application module: state *)

Module Filters.
Record t : Type := mk {
  startDate : string;
  endDate : string;
  category : string;
  payment : string;
  search : string
}.

Definition initial : t := mk "" "" "All" "All" "".
End Filters.

Record AppState : Type := mkState {
  st_settings : Settings.t;
  st_trips : list Trip.t;
  activeTripId : string;
  st_expenses : list Expense.t;
  filters : Filters.t;
  editingTripId : option string;
  editingExpenseId : option string;
  pendingRestore : option Payload.t
}.

Definition with_settings (v : Settings.t) (s : AppState) : AppState :=
  mkState v (st_trips s) (activeTripId s) (st_expenses s) (filters s)
          (editingTripId s) (editingExpenseId s) (pendingRestore s).
Definition with_trips (v : list Trip.t) (s : AppState) : AppState :=
  mkState (st_settings s) v (activeTripId s) (st_expenses s) (filters s)
          (editingTripId s) (editingExpenseId s) (pendingRestore s).
Definition with_activeTripId (v : string) (s : AppState) : AppState :=
  mkState (st_settings s) (st_trips s) v (st_expenses s) (filters s)
          (editingTripId s) (editingExpenseId s) (pendingRestore s).
Definition with_expenses (v : list Expense.t) (s : AppState) : AppState :=
  mkState (st_settings s) (st_trips s) (activeTripId s) v (filters s)
          (editingTripId s) (editingExpenseId s) (pendingRestore s).
Definition with_filters (v : Filters.t) (s : AppState) : AppState :=
  mkState (st_settings s) (st_trips s) (activeTripId s) (st_expenses s) v
          (editingTripId s) (editingExpenseId s) (pendingRestore s).
Definition with_editingTripId (v : option string) (s : AppState) : AppState :=
  mkState (st_settings s) (st_trips s) (activeTripId s) (st_expenses s) (filters s)
          v (editingExpenseId s) (pendingRestore s).
Definition with_editingExpenseId (v : option string) (s : AppState) : AppState :=
  mkState (st_settings s) (st_trips s) (activeTripId s) (st_expenses s) (filters s)
          (editingTripId s) v (pendingRestore s).
Definition with_pendingRestore (v : option Payload.t) (s : AppState) : AppState :=
  mkState (st_settings s) (st_trips s) (activeTripId s) (st_expenses s) (filters s)
          (editingTripId s) (editingExpenseId s) v.

(** The application state together with the database and the fault budget
    of the storage engine. *)
Record World : Type := mkWorld {
  app : AppState;
  db : Db;
  flt : fault
}.

(** An event handler either runs to its end or stops on a rejected call. *)
Inductive AppRes (A : Type) : Type :=
  | Ret (a : A) (w : World)
  | Raise (w : World).
Arguments Ret {A} a w.
Arguments Raise {A} w.

Definition App (A : Type) : Type := World → AppRes A.

Definition app_ret {A} (a : A) : App A := λ w, Ret a w.

Definition app_bind {A B} (m : App A) (k : A → App B) : App B :=
  λ w, match m w with
       | Ret a w' => k a w'
       | Raise w' => Raise w'
       end.

Notation "'let*' x := m 'in' k" := (app_bind m (λ x, k))
  (at level 10, x name, m at level 100, k at level 200, only parsing).
Notation "'step' m 'in' k" := (app_bind m (λ _, k))
  (at level 10, m at level 100, k at level 200, only parsing).

(** [await op(...)] for an operation of db.js. *)
Definition call {A} (op : Db → fault → Result A * Db * fault) : App A :=
  λ w, match op (db w) (flt w) with
       | (Ok a, d, f) => Ret a (mkWorld (app w) d f)
       | (Rejected, d, f) => Raise (mkWorld (app w) d f)
       end.

Definition get_state : App AppState := λ w, Ret (app w) w.

Definition modify (g : AppState → AppState) : App unit :=
  λ w, Ret tt (mkWorld (g (app w)) (db w) (flt w)).

Definition world_of {A} (r : AppRes A) : World :=
  match r with
  | Ret _ w => w
  | Raise w => w
  end.

(** The status message a handler ends on, when it ends. *)
Definition status_of {A} (r : AppRes A) : option A :=
  match r with
  | Ret msg _ => Some msg
  | Raise _ => None
  end.

(** ** Sorting and maps *)

(** [Array.prototype.sort] is stable; [before a b] says that the comparator
    does not put [a] after [b] (its value on [(a, b)] is not positive). *)
Fixpoint sort_insert {A} (before : A → A → bool) (x : A) (l : list A) : list A :=
  match l with
  | [] => [x]
  | y :: l' => if before x y then x :: l else y :: sort_insert before x l'
  end.

Definition js_sort {A} (before : A → A → bool) (l : list A) : list A :=
  foldr (sort_insert before) [] l.

(** A [Map] from strings to numbers, in insertion order. *)
Definition JsMap : Type := list (string * Qc).

Fixpoint map_get (k : string) (m : JsMap) : option Qc :=
  match m with
  | [] => None
  | (k', v) :: m' => if decide (k = k') then Some v else map_get k m'
  end.

Fixpoint map_set (k : string) (v : Qc) (m : JsMap) : JsMap :=
  match m with
  | [] => [(k, v)]
  | (k', v') :: m' =>
      if decide (k = k') then (k, v) :: m' else (k', v') :: map_set k v m'
  end.

(** A [Set] of strings, in insertion order. *)
Definition set_add (acc : list string) (x : string) : list string :=
  if bool_decide (x ∈ acc) then acc else acc ++ [x].

(** ** Application module: trips *)

Definition parseCurrencies (input baseCurrency : string) : list string :=
  let items :=
    filter (λ v, JsString.truthy v = true)
      (map (λ v, JsString.toUpperCase (JsString.trim v)) (JsString.split "," input)) in
  let set := fold_left set_add items [] in
  let set := set_add set (JsString.toUpperCase (JsString.trim baseCurrency)) in
  filter (λ v, JsString.truthy v = true) set.

Definition activeTrip (s : AppState) : option Trip.t :=
  find (λ t, bool_decide (Trip.id t = activeTripId s)) (st_trips s).

(** The fields of the trip form, numbers already read by [Number(...)]. *)
Record TripForm : Type := mkTripForm {
  tripName : string;
  tripStartDate : string;
  tripEndDate : string;
  tripBaseCurrency : string;
  tripCurrencies : string;
  tripBudgetEnabled : bool;
  tripBudgetAmount : number;
  tripDailyBudgetAmount : option number   (* [None]: the input is empty *)
}.

(** [uid] is the fresh identifier [uid('trip')] would give, [now] is
    [Date.now()]. *)
Definition collectTripFormData (s : AppState) (form : TripForm) (uid : string)
    (now : Z) : Trip.t :=
  let baseCurrency := JsString.toUpperCase (JsString.trim (tripBaseCurrency form)) in
  let currencies := parseCurrencies (tripCurrencies form) baseCurrency in
  Trip.mk (str_or (editingTripId s) uid)
          (JsString.trim (tripName form))
          (tripStartDate form)
          (tripEndDate form)
          baseCurrency
          currencies
          (tripBudgetEnabled form)
          (if tripBudgetEnabled form then tripBudgetAmount form else Num 0)
          (tripDailyBudgetAmount form)
          now.

Definition validateTripForm (payload : Trip.t) : option string :=
  if negb (JsString.truthy (Trip.name payload))
     || bool_decide (50 < String.length (Trip.name payload))%nat
  then Some "Trip name is required (1-50 chars)."
  else if negb (JsString.truthy (Trip.startDate payload))
          || negb (JsString.truthy (Trip.endDate payload))
  then Some "Start and end date are required."
  else if String.ltb (Trip.endDate payload) (Trip.startDate payload)
  then Some "Start date must be before or equal to end date."
  else if negb (JsString.truthy (Trip.baseCurrency payload))
  then Some "Base currency is required."
  else if negb (bool_decide (Trip.baseCurrency payload ∈ Trip.currencies payload))
  then Some "Currencies must include base currency."
  else if Trip.budgetEnabled payload && negb (num_gt0 (Trip.budgetAmountBase payload))
  then Some "Budget amount is required when budget is enabled."
  else None.

(** ** Application module: expenses *)

Record ExpenseForm : Type := mkExpenseForm {
  expDateTime : string;
  expAmountOriginal : number;
  expCurrency : string;
  expFx : number;
  expCategory : string;
  expPayment : string;
  expNote : string;
  expPaidBy : string;
  expLocation : string;
  expTags : string
}.

(** [nowLocal] is what [nowLocalDateTimeInput()] would give. *)
Definition collectExpenseFormData (s : AppState) (trip : Trip.t) (form : ExpenseForm)
    (uid : string) (now : Z) (nowLocal : string) : Expense.t :=
  let currency := expCurrency form in
  let fxRateToBase :=
    if decide (currency = Trip.baseCurrency trip) then Num 1 else expFx form in
  let amountOriginal := expAmountOriginal form in
  let amountBase :=
    roundBaseAmount (num_mul amountOriginal fxRateToBase) (Trip.baseCurrency trip) in
  let tags :=
    map (JsString.slice0 24)
      (take 10
         (filter (λ v, JsString.truthy v = true)
            (map JsString.trim (JsString.split "," (expTags form))))) in
  Expense.mk (str_or (editingExpenseId s) uid)
             (Trip.id trip)
             (if JsString.truthy (expDateTime form) then expDateTime form else nowLocal)
             amountOriginal
             currency
             fxRateToBase
             amountBase
             (expCategory form)
             (expPayment form)
             (JsString.trim (expNote form))
             (expPaidBy form)
             (JsString.trim (expLocation form))
             tags
             now
             now.

Definition validateExpense (exp : Expense.t) (trip : Trip.t) : option string :=
  if negb (num_gt0 (Expense.amountOriginal exp))
  then Some "Amount must be greater than 0."
  else if negb (JsString.truthy (Expense.currency exp))
  then Some "Currency is required."
  else if negb (JsString.truthy (Expense.dateTime exp))
  then Some "Date/time is required."
  else if negb (JsString.truthy (Expense.category exp))
  then Some "Category is required."
  else if negb (JsString.truthy (Expense.payment exp))
  then Some "Payment method is required."
  else if negb (bool_decide (Expense.currency exp = Trip.baseCurrency trip))
          && negb (num_gt0 (Expense.fxRateToBase exp))
  then Some "FX rate must be greater than 0 for non-base currency."
  else if bool_decide (120 < String.length (Expense.note exp))%nat
  then Some "Note must be 120 chars or less."
  else if bool_decide (80 < String.length (Expense.location exp))%nat
  then Some "Location must be 80 chars or less."
  else if bool_decide (10 < length (Expense.tags exp))%nat
  then Some "Maximum 10 tags."
  else None.

(** ** Aggregation engine *)

Definition filteredExpenses (s : AppState) : list Expense.t :=
  let f := filters s in
  let search := JsString.toLowerCase (JsString.trim (Filters.search f)) in
  let keep (exp : Expense.t) : bool :=
    let day := JsString.slice0 10 (Expense.dateTime exp) in
    if JsString.truthy (Filters.startDate f) && String.ltb day (Filters.startDate f)
    then false
    else if JsString.truthy (Filters.endDate f) && String.ltb (Filters.endDate f) day
    then false
    else if negb (bool_decide (Filters.category f = "All"))
            && negb (bool_decide (Expense.category exp = Filters.category f))
    then false
    else if negb (bool_decide (Filters.payment f = "All"))
            && negb (bool_decide (Expense.payment exp = Filters.payment f))
    then false
    else if JsString.truthy search
    then
      let bag :=
        JsString.toLowerCase
          (JsString.join " " ([Expense.note exp; Expense.location exp] ++ Expense.tags exp)) in
      JsString.includes bag search
    else true in
  filter (λ exp, keep exp = true) (st_expenses s).

(** [item[key] || 'Unknown'] *)
Definition key_or_unknown (k : string) : string :=
  if JsString.truthy k then k else "Unknown".

Definition accumulate (keyOf : Expense.t → string) (map : JsMap) (item : Expense.t)
    : JsMap :=
  let k := keyOf item in
  map_set k (default 0 (map_get k map) + num_or0 (Expense.amountBase item)) map.

(** [aggregateBy(items, key)], the key given as the projection it names. *)
Definition aggregateBy (items : list Expense.t) (key : Expense.t → string) : JsMap :=
  js_sort (λ a b, bool_decide (b.2 - a.2 ≤ 0)%Qc)
    (fold_left (accumulate (λ item, key_or_unknown (key item))) items []).

Definition aggregateByDay (items : list Expense.t) : JsMap :=
  js_sort (λ a b, String.ltb a.1 b.1)
    (fold_left (accumulate (λ item, JsString.slice0 10 (Expense.dateTime item))) items []).

(** [items.reduce((sum, x) => sum + Number(x.amountBase || 0), 0)] *)
Definition total_of (items : list Expense.t) : Qc :=
  fold_left (λ sum x, sum + num_or0 (Expense.amountBase x)) items 0.

Definition MS_PER_DAY : Z := 1000 * 60 * 60 * 24.

(** The elapsed days of the budget panel. [tripStart], [tripEnd] and [now]
    are the millisecond values of the three [Date] objects. *)
Definition daysElapsed (tripStart tripEnd now : Z) : Z :=
  let endForElapsed := if bool_decide (now < tripEnd)%Z then now else tripEnd in
  let elapsedMs := Z.max (endForElapsed - tripStart) 0 in
  Z.max (elapsedMs `div` MS_PER_DAY + 1) 1.

Record BudgetPanel : Type := mkBudget {
  remaining : Qc;
  panel_daysElapsed : Z;
  avgPerDay : Qc
}.

Record Dashboard : Type := mkDashboard {
  total : Qc;
  byCategory : JsMap;
  byPayment : JsMap;
  byDay : JsMap;
  budgetPanel : option BudgetPanel    (* [None]: budget disabled *)
}.

(** What [renderDashboard] computes for the active trip; [dateMs] stands for
    [new Date(text).getTime()] and [now] for the current time. The result is
    [None] when there is no active trip. *)
Definition renderDashboard (s : AppState) (dateMs : string → Z) (now : Z)
    : option Dashboard :=
  match activeTrip s with
  | None => None
  | Some trip =>
      let items := filteredExpenses s in
      let total := total_of items in
      let byCategory := aggregateBy items Expense.category in
      let byPayment := aggregateBy items Expense.payment in
      let byDay := aggregateByDay items in
      let panel :=
        if Trip.budgetEnabled trip then
          let remaining := num_or0 (Trip.budgetAmountBase trip) - total in
          let tripStart := dateMs (Trip.startDate trip +:+ "T00:00") in
          let tripEnd := dateMs (Trip.endDate trip +:+ "T23:59") in
          let days := daysElapsed tripStart tripEnd now in
          Some (mkBudget remaining days (total / Qc_of_Z days))
        else None in
      Some (mkDashboard total byCategory byPayment byDay panel)
  end.

(** ** Application module: loading and refreshing *)

Definition loadExpenses : App unit :=
  let* s := get_state in
  match activeTrip s with
  | None => modify (with_expenses [])
  | Some trip =>
      let* expenses := call (getExpensesByTrip (Trip.id trip)) in
      let sorted :=
        js_sort
          (λ a b,
             if bool_decide (Expense.dateTime a = Expense.dateTime b)
             then bool_decide (Expense.createdAt b - Expense.createdAt a ≤ 0)%Z
             else negb (String.ltb (Expense.dateTime a) (Expense.dateTime b)))
          expenses in
      modify (with_expenses sorted)
  end.

Definition loadAll : App unit :=
  let* settings := call getSettings in
  step modify (with_settings settings) in
  let* trips := call getTrips in
  step modify (with_trips trips) in
  step modify (λ s,
    match st_trips s with
    | t :: _ => if JsString.truthy (activeTripId s) then s
                else with_activeTripId (Trip.id t) s
    | [] => s
    end) in
  step modify (λ s,
    if JsString.truthy (activeTripId s)
       && negb (existsb (λ t, bool_decide (Trip.id t = activeTripId s)) (st_trips s))
    then with_activeTripId (from_option Trip.id "" (head (st_trips s))) s
    else s) in
  loadExpenses.

(** The parts of [refreshUI] that touch the state: [renderTripList] sorts
    the cached trips in place, [renderFilterOptions] drops a category or
    payment filter that is no longer in the settings, the date filters
    default to the trip's dates and [setExpenseDefaults] leaves edit mode. *)
Definition renderTripList : App unit :=
  modify (λ s,
    with_trips (js_sort (λ a b, bool_decide (Trip.createdAt b - Trip.createdAt a ≤ 0)%Z)
                  (st_trips s)) s).

Definition renderFilterOptions : App unit :=
  modify (λ s,
    let f := filters s in
    let category :=
      if bool_decide (Filters.category f ∈ Settings.categories (st_settings s))
      then Filters.category f else "All" in
    let payment :=
      if bool_decide (Filters.payment f ∈ Settings.paymentMethods (st_settings s))
      then Filters.payment f else "All" in
    with_filters
      (Filters.mk (Filters.startDate f) (Filters.endDate f) category payment
                  (Filters.search f)) s).

Definition setExpenseDefaults : App unit :=
  modify (λ s,
    match activeTrip s with
    | None => s
    | Some _ => with_editingExpenseId None s
    end).

Definition refreshUI : App unit :=
  step renderTripList in
  step renderFilterOptions in
  step modify (λ s,
    match activeTrip s with
    | None => s
    | Some trip =>
        let f := filters s in
        if negb (JsString.truthy (Filters.startDate f))
           || negb (JsString.truthy (Filters.endDate f))
        then with_filters
               (Filters.mk (Trip.startDate trip) (Trip.endDate trip)
                  (Filters.category f) (Filters.payment f) (Filters.search f)) s
        else s
    end) in
  setExpenseDefaults.

(** ** Application module: event handlers *)

Definition MSG_BASE_CURRENCY : string :=
  "Base currency cannot be changed once expenses exist for this trip in v1.".

(** [state.editingTripId], when it is set (truthy). *)
Definition editing (id : option string) : option string :=
  match id with
  | Some v => if JsString.truthy v then Some v else None
  | None => None
  end.

(** The edit branch of [handleTripSubmit]: [None] when the update is
    refused, otherwise the trip to write, with the creation time of the
    stored trip. *)
Definition checkTripEdit (id : string) (newTrip : Trip.t) : App (option Trip.t) :=
  let* old := call (getTripById id) in
  let* refused :=
    match old with
    | Some o =>
        if bool_decide (Trip.baseCurrency o ≠ Trip.baseCurrency newTrip) then
          let* existingExpenses := call (getExpensesByTrip (Trip.id o)) in
          app_ret (bool_decide (0 < length existingExpenses)%nat)
        else app_ret false
    | None => app_ret false
    end in
  if refused : bool then app_ret None
  else
    let createdAt :=
      match old with
      | Some o => if bool_decide (Trip.createdAt o = 0%Z) then Trip.createdAt newTrip
                  else Trip.createdAt o
      | None => Trip.createdAt newTrip
      end in
    app_ret (Some (Trip.with_createdAt createdAt newTrip)).

Definition handleTripSubmit (form : TripForm) (uid : string) (now : Z) : App string :=
  let* s := get_state in
  let wasEditing := bool_decide (is_Some (editing (editingTripId s))) in
  let newTrip := collectTripFormData s form uid now in
  match validateTripForm newTrip with
  | Some validation => app_ret validation
  | None =>
      let* checked :=
        match editing (editingTripId s) with
        | Some id => checkTripEdit id newTrip
        | None => app_ret (Some newTrip)
        end in
      match checked with
      | None => app_ret MSG_BASE_CURRENCY
      | Some trip =>
          step call (upsertTrip trip) in
          step modify (λ s, if JsString.truthy (activeTripId s) then s
                            else with_activeTripId (Trip.id trip) s) in
          step loadAll in
          step modify (with_editingTripId None) in
          step refreshUI in
          app_ret (if wasEditing then "Trip updated." else "Trip created.")
      end
  end.

Definition handleExpenseSubmit (form : ExpenseForm) (uid : string) (now : Z)
    (nowLocal : string) : App string :=
  let* s := get_state in
  match activeTrip s with
  | None => app_ret "Create/select a trip first."
  | Some trip =>
      let wasEditing := bool_decide (is_Some (editing (editingExpenseId s))) in
      let exp := collectExpenseFormData s trip form uid now nowLocal in
      match validateExpense exp trip with
      | Some validation => app_ret validation
      | None =>
          let* exp :=
            match editing (editingExpenseId s) with
            | Some id =>
                let* existing := call (getExpenseById id) in
                match existing with
                | Some old =>
                    if bool_decide (Expense.createdAt old = 0%Z) then app_ret exp
                    else app_ret (Expense.with_createdAt (Expense.createdAt old) exp)
                | None => app_ret exp
                end
            | None => app_ret exp
            end in
          step call (upsertExpense exp) in
          step loadExpenses in
          step setExpenseDefaults in
          app_ret (if wasEditing then "Expense updated." else "Expense added.")
      end
  end.

(** The lines of a settings text area: split, trimmed, empty ones dropped. *)
Definition parseLines (text : string) : list string :=
  filter (λ v, JsString.truthy v = true)
    (map JsString.trim (JsString.split "010" text)).

(** The submit handler of the settings form. *)
Definition handleSettingsSubmit (settingsCategories settingsPayments : string)
    : App string :=
  let categories := parseLines settingsCategories in
  let payments := parseLines settingsPayments in
  if bool_decide (length categories = 0%nat) || bool_decide (length payments = 0%nat)
  then app_ret "Categories and payment methods must not be empty."
  else
    step call (saveSettings (Settings.mk categories payments)) in
    let* settings := call getSettings in
    step modify (with_settings settings) in
    step renderFilterOptions in
    step setExpenseDefaults in
    app_ret "Config lists updated.".

(** What reading the chosen file gives. *)
Inductive ParsedFile : Type :=
  | InvalidJson
  | Parsed (payload : Payload.t).

Definition MSG_RESTORE_SHAPE : string :=
  "Backup must contain trips and expenses arrays.".

(** [file] is [None] when no file was chosen. The handler gives the status
    message it sets, if any. *)
Definition handleRestoreFileChange (file : option ParsedFile) : App (option string) :=
  step modify (with_pendingRestore None) in
  match file with
  | None => app_ret None
  | Some InvalidJson => app_ret (Some "Invalid JSON file.")
  | Some (Parsed payload) =>
      if negb (Payload.isArray (Payload.trips payload))
         || negb (Payload.isArray (Payload.expenses payload))
      then app_ret (Some MSG_RESTORE_SHAPE)
      else
        step modify (with_pendingRestore (Some payload)) in
        app_ret (Some "Backup file loaded. Review summary and confirm restore.")
  end.

(** [ok] is the answer to the confirmation dialog. *)
Definition applyRestore (ok : bool) : App (option string) :=
  let* s := get_state in
  match pendingRestore s with
  | None => app_ret (Some "Select a valid backup file first.")
  | Some payload =>
      if negb ok then app_ret None
      else
        step call (restoreBackup payload) in
        step modify (with_pendingRestore None) in
        step loadAll in
        step refreshUI in
        app_ret (Some "Restore completed.")
  end.

(** The delete button of the trip list; [ok] is the answer to the
    confirmation dialog. *)
Definition handleTripDelete (tripId : string) (ok : bool) : App (option string) :=
  let* s := get_state in
  if negb (JsString.truthy tripId) then app_ret None
  else
    match find (λ t, bool_decide (Trip.id t = tripId)) (st_trips s) with
    | None => app_ret None
    | Some _ =>
        if negb ok then app_ret None
        else
          step call (deleteTripCascade tripId) in
          step modify (λ s, if bool_decide (activeTripId s = tripId)
                            then with_activeTripId "" s else s) in
          step loadAll in
          step modify (with_editingTripId None) in
          step refreshUI in
          app_ret (Some "Trip deleted.")
    end.

(** ** Further code of db.js *)

Definition clearAllData : Db → fault → Result unit * Db * fault :=
  runTx [Trips; Expenses; Meta; SettingsStore] readwrite
    (exec req_write Trips (set_trips (λ _, ∅));
     exec req_write Expenses (set_expenses (λ _, ∅));
     exec req_write Meta (set_meta (λ _, ∅));
     exec req_write SettingsStore (set_settings (λ _, ∅));
     exec req_write Meta (set_meta <["schemaVersion" := SCHEMA_VERSION]>);
     exec req_write SettingsStore
       (set_settings <["categories" := Settings.categories DEFAULT_SETTINGS]>);
     req_write SettingsStore
       (set_settings <["paymentMethods" := Settings.paymentMethods DEFAULT_SETTINGS]>)).

(** ** Further code of the application module *)

(** [collectBackupPayload]. The [exportedAt] stamp is left out: nothing
    reads it back. *)
Definition collectBackupPayload : App Payload.t :=
  let* allExpenses := call getAllExpenses in
  let* s := get_state in
  app_ret
    (Payload.mk (Some SCHEMA_VERSION)
       (Payload.Arr (st_trips s))
       (Payload.Arr allExpenses)
       (Some (Payload.mkConfig (Some (Settings.categories (st_settings s)))
                               (Some (Settings.paymentMethods (st_settings s)))))).

(** The delete button of the expense list; [ok] is the answer to the
    confirmation dialog. *)
Definition handleExpenseDelete (id : string) (ok : bool) : App (option string) :=
  if negb (JsString.truthy id) then app_ret None
  else if negb ok then app_ret None
  else
    step call (deleteExpense id) in
    step loadExpenses in
    app_ret (Some "Expense deleted.").

(** What [updateAmountBasePreview] puts in the preview: a dash, the text
    'Invalid FX', or the amount it hands to [moneyFormat]. *)
Inductive Preview : Type :=
  | PreviewDash
  | PreviewInvalidFx
  | PreviewAmount (amountBase : number).

Definition updateAmountBasePreview (s : AppState) (form : ExpenseForm) : Preview :=
  match activeTrip s with
  | None => PreviewDash
  | Some trip =>
      let amount := expAmountOriginal form in
      if negb (num_gt0 amount) then PreviewDash
      else
        let currency := expCurrency form in
        let fx := if decide (currency = Trip.baseCurrency trip) then Num 1
                  else expFx form in
        if negb (num_gt0 fx) then PreviewInvalidFx
        else PreviewAmount (roundBaseAmount (num_mul amount fx) (Trip.baseCurrency trip))
  end.

(** [e.updatedAt || e.createdAt || 0] *)
Definition lastTouched (e : Expense.t) : Z :=
  if bool_decide (Expense.updatedAt e = 0%Z) then Expense.createdAt e
  else Expense.updatedAt e.

Definition findLastFxRate (s : AppState) (tripId currency : string) : option number :=
  let hits :=
    filter (λ e, Expense.tripId e = tripId ∧ Expense.currency e = currency
                 ∧ num_gt0 (Expense.fxRateToBase e) = true)
           (st_expenses s) in
  let sorted := js_sort (λ a b, bool_decide (lastTouched b - lastTouched a ≤ 0)%Z) hits in
  match head sorted with
  | Some hit =>
      match Expense.fxRateToBase hit with
      | Num q => if bool_decide (q = 0) then None else Some (Num q)
      | NaN => None
      end
  | None => None
  end.

(** [s.replaceAll(c, r)] for a pattern of one character. *)
Fixpoint replaceAll (c : ascii) (r : string) (s : string) : string :=
  match s with
  | "" => ""
  | String a s' =>
      if Ascii.eqb a c then r +:+ replaceAll c r s' else String a (replaceAll c r s')
  end.

Definition escapeHtml (str : string) : string :=
  replaceAll "'" "&#39;"
    (replaceAll "034" "&quot;"
       (replaceAll ">" "&gt;"
          (replaceAll "<" "&lt;"
             (replaceAll "&" "&amp;" str)))).

(** The characters that [sanitizeName] keeps: [a-zA-Z0-9_-]. *)
Definition is_name_char (a : ascii) : bool :=
  let n := nat_of_ascii a in
  bool_decide (97 ≤ n ≤ 122)%nat || bool_decide (65 ≤ n ≤ 90)%nat
  || bool_decide (48 ≤ n ≤ 57)%nat || Ascii.eqb a "_" || Ascii.eqb a "-".

(** [s.replace(/[^a-zA-Z0-9_-]+/g, '_')]: every run of other characters
    becomes one underscore; [in_run] says that the run has begun. *)
Fixpoint replace_runs (in_run : bool) (s : string) : string :=
  match s with
  | "" => ""
  | String a s' =>
      if is_name_char a then String a (replace_runs false s')
      else if in_run then replace_runs true s'
      else String "_" (replace_runs true s')
  end.

Fixpoint drop_underscores (s : string) : string :=
  match s with
  | String a s' => if Ascii.eqb a "_" then drop_underscores s' else s
  | "" => ""
  end.

(** [s.replace(/^_+|_+$/g, '')] *)
Definition strip_underscores (s : string) : string :=
  String.rev (drop_underscores (String.rev (drop_underscores s))).

Definition sanitizeName (name : string) : string :=
  let cut := JsString.slice0 80 (strip_underscores (replace_runs false name)) in
  if JsString.truthy cut then cut else "trip".

(** The cell encoder [esc] of [exportCsv], on the text of the cell. *)
Definition csv_special (s : string) : bool :=
  JsString.includes s (String "034" "") || JsString.includes s ","
  || JsString.includes s (String "010" "").

Definition esc (s : string) : string :=
  if csv_special s
  then String "034" (replaceAll "034" (String "034" (String "034" "")) s
                     +:+ String "034" "")
  else s.

(** ** Definitions used in the statements *)

(** The expenses left when the cursor has deleted the records at [keys]. *)
Definition delete_keys (keys : list string) (m : gmap string Expense.t)
    : gmap string Expense.t :=
  fold_left (λ acc k, delete k acc) keys m.



(** The scenario of the specification: a trip in JPY with a budget of
    100000, no expense yet, and the expense form filled with 50 USD at a
    rate of 150. *)
Definition scenario_trip : Trip.t :=
  Trip.mk "trip_1" "Tokyo" "2024-05-01" "2024-05-10" "JPY" ["JPY"; "USD"] true
          (Num (Qc_of_Z 100000)) None 1%Z.

Definition scenario_world : World :=
  mkWorld
    (mkState DEFAULT_SETTINGS [scenario_trip] "trip_1" [] Filters.initial None None None)
    (mkDb ∅ ∅ {[ "trip_1" := scenario_trip ]} ∅)
    None.

Definition scenario_form : ExpenseForm :=
  mkExpenseForm "2024-05-02T12:30" (Num (Qc_of_Z 50)) "USD" (Num (Qc_of_Z 150))
                "Food & drinks" "Cash" "" "Me" "" "".

Definition scenario_after : World :=
  world_of (handleExpenseSubmit scenario_form "exp_1" 1714621800000%Z
              "2024-05-02T12:30" scenario_world).

(** A handler, or a part of one, that leaves the database as it found it. *)
Definition keeps_db {A} (m : App A) : Prop :=
  ∀ w, db (world_of (m w)) = db w.



(** The handler ends, if it ends, on a message that satisfies [P]. *)
Definition ends_with {A} (P : A → Prop) (m : App A) : Prop :=
  ∀ w, match m w with
       | Ret msg _ => P msg
       | Raise _ => True
       end.

(** The expense form of the scenario with twelve tags, one of them longer
    than 24 characters. *)
Definition many_tags_form : ExpenseForm :=
  mkExpenseForm "2024-05-02T12:30" (Num (Qc_of_Z 50)) "USD" (Num (Qc_of_Z 150))
                "Food & drinks" "Cash" "" "Me" ""
                "a, b, c, d, e, f, g, h, i, j, k, abcdefghijklmnopqrstuvwxyz0123".

Definition many_tags_result : AppRes string :=
  handleExpenseSubmit many_tags_form "exp_1" 1714621800000%Z "2024-05-02T12:30"
    scenario_world.

(** A store after the check-then-seed of one key. *)
Definition seeded {V} (key : string) (v : V) (m : gmap string V) : gmap string V :=
  match m !! key with
  | Some _ => m
  | None => <[key := v]> m
  end.

(** The database after a bootstrap that went through. *)
Definition bootstrapped (d : Db) : Db :=
  mkDb (seeded "schemaVersion" SCHEMA_VERSION (meta d))
       (seeded "paymentMethods" (Settings.paymentMethods DEFAULT_SETTINGS)
          (seeded "categories" (Settings.categories DEFAULT_SETTINGS) (settings d)))
       (trips d) (expenses d).


(** The elapsed days as the specification words them: the whole days from
    the trip start to the earlier of now and the trip end, plus one, and at
    least one. *)
Definition daysElapsed_spec (tripStart tripEnd now : Z) : Z :=
  Z.max ((Z.min now tripEnd - tripStart) `div` MS_PER_DAY + 1) 1.

(** The clock of the scenario: the two dates of the trip in milliseconds. *)
Definition scenario_dateMs (text : string) : Z :=
  if decide (text = "2024-05-01T00:00") then 1714521600000%Z
  else 1715385540000%Z.

(** No expense without its trip. *)
Definition no_orphans (d : Db) : Prop :=
  map_Forall (λ _ e, is_Some (trips d !! Expense.tripId e)) (expenses d).

(** Every record sits under its own id, as the key paths make it. *)
Definition keyed_by_id (d : Db) : Prop :=
  map_Forall (λ k t, Trip.id t = k) (trips d)
  ∧ map_Forall (λ k e, Expense.id e = k) (expenses d).

(** The store that [put] builds from a list of records, later ones
    replacing earlier ones with the same key. *)
Definition put_all {V} (key : V → string) (l : list V) (m : gmap string V)
    : gmap string V :=
  fold_left (λ acc x, <[key x := x]> acc) l m.

(** The database a restore leaves when it goes through. *)
Definition restored (schemaVersion : option string) (config : option Payload.config_t)
    (ts : list Trip.t) (es : list Expense.t) : Db :=
  mkDb {[ "schemaVersion" := str_or schemaVersion SCHEMA_VERSION ]}
       (<["paymentMethods" :=
            default (Settings.paymentMethods DEFAULT_SETTINGS)
                    (config ≫= Payload.paymentMethods)]>
          {[ "categories" :=
               default (Settings.categories DEFAULT_SETTINGS)
                       (config ≫= Payload.categories) ]})
       (put_all Trip.id ts ∅)
       (put_all Expense.id es ∅).
(** A handler made of write requests only: it places the update [u], or one
    of its requests fails. *)
Definition tx_writes (m : Tx unit) (env : TxEnv) (u : Db → Db) : Prop :=
  ∀ d f,
    (m env d f = Failed ∧ f ≠ None)
    ∨ ∃ f', m env d f = Done tt (u d) f' ∧ (f = None → f' = None).
(** The database of the scenario after the bootstrap, and the application
    state that [loadAll] builds from it. *)
Definition scenario_db : Db := (initializeDb (db scenario_after) None).1.2.

Definition scenario_loaded : World :=
  world_of (loadAll (mkWorld (app scenario_after) scenario_db None)).

(** The total of the items whose key is [k]. *)
Definition key_total (keyOf : Expense.t → string) (items : list Expense.t)
    (k : string) : Qc :=
  total_of (filter (λ item, keyOf item = k) items).

(** The day of an expense: the first ten characters of its [dateTime]. *)
Definition day_of (e : Expense.t) : string := JsString.slice0 10 (Expense.dateTime e).

(** * Verified properties *)

(** ** Transactions *)

Section tx_facts.
Context {A : Type}.

(** A transaction never leaves anything else than the old database or the
    working copy of its handler. *)
Lemma runTx_rejected_or_copy names mode (h : Tx A) d f :
  (runTx names mode h d f).1.2 = d ∨
  (∃ a d' f', h (mkEnv names mode) d f = Done a d' f' ∧
              (runTx names mode h d f).1 = (Ok a, d')) ∨
  (∃ d' f', h (mkEnv names mode) d f = Thrown d' f' ∧
            (runTx names mode h d f).1 = (Rejected, d')).
Proof.
  unfold runTx, commit.
  destruct (h _ d f) as [a d' f'| |d' f']; [|by left|].
  - destruct (tick f'); [right; left; eauto|by left].
  - destruct (tick f'); [right; right; eauto|by left].
Qed.
End tx_facts.

(** ** Cascade delete *)

Lemma lookup_delete_keys keys (m : gmap string Expense.t) k :
  delete_keys keys m !! k = if bool_decide (k ∈ keys) then None else m !! k.
Proof.
  revert m. induction keys as [|k' keys IH]; intros m; simpl; [done|].
  unfold delete_keys in *. simpl. rewrite IH.
  destruct (decide (k = k')) as [->|Hne].
  - rewrite lookup_delete_eq, (bool_decide_eq_true_2 (k' ∈ k' :: keys));
      [|by apply list_elem_of_here].
    by destruct (bool_decide (k' ∈ keys)).
  - rewrite lookup_delete_ne; [|done].
    destruct (decide (k ∈ keys)) as [Hin|Hin].
    + rewrite !bool_decide_eq_true_2; [done|by apply list_elem_of_further|done].
    + rewrite !bool_decide_eq_false_2; [done| |done].
      by intros [?|?]%elem_of_cons.
Qed.

Lemma tick_Some_None f f' : tick f = Some f' → f = None → f' = None.
Proof. intros Ht ->. simpl in Ht. by simplify_eq. Qed.

Lemma tick_fails f : tick f = None → f ≠ None.
Proof. by intros Ht ->. Qed.

Lemma cursor_delete_all_run keys env d f :
  Expenses ∈ tx_stores env → tx_mode env = readwrite →
  (cursor_delete_all keys env d f = Failed ∧ f ≠ None) ∨
  ∃ f', cursor_delete_all keys env d f = Done tt (set_expenses (delete_keys keys) d) f'
        ∧ (f = None → f' = None).
Proof.
  intros Hin Hmode. revert d f.
  induction keys as [|k keys IH]; intros d f; simpl.
  - unfold req_read. rewrite bool_decide_eq_true_2; [|done].
    destruct (tick f) as [f1|] eqn:Hf1; [|left; eauto using tick_fails].
    right. exists f1. split; [by destruct d|eauto using tick_Some_None].
  - unfold tx_bind, req_read, req_write.
    rewrite !bool_decide_eq_true_2; [|done..]. rewrite Hmode.
    destruct (tick f) as [f1|] eqn:Hf1; [|left; eauto using tick_fails].
    destruct (tick f1) as [f2|] eqn:Hf2;
      [|left; split; [done|]; intros ->;
        by rewrite (tick_Some_None _ _ Hf1 eq_refl) in Hf2].
    destruct (IH (set_expenses (delete k) d) f2) as [[-> Hne]|(f' & -> & Hnone)].
    + left. split; [done|]. intros ->. apply Hne. eauto using tick_Some_None.
    + right. exists f'. split; [by destruct d|].
      intros ->. apply Hnone. eauto using tick_Some_None.
Qed.

Lemma delete_keys_index T (d : Db) :
  delete_keys (index_tripId T d) (expenses d)
  = filter (λ kv, Expense.tripId kv.2 ≠ T) (expenses d).
Proof.
  apply map_eq. intros k. rewrite lookup_delete_keys. unfold index_tripId.
  case_bool_decide as Hk.
  - apply list_elem_of_fmap in Hk as ([k' e] & -> & Hke).
    apply elem_of_map_to_list in Hke.
    apply map_lookup_filter_Some in Hke as [Hke HT]. simpl in *.
    symmetry. apply map_lookup_filter_None. right. intros e' He'. simpl. naive_solver.
  - destruct (expenses d !! k) as [e|] eqn:He.
    + symmetry. apply map_lookup_filter_Some. split; [done|]. simpl. intros HT.
      apply Hk. apply list_elem_of_fmap. exists (k, e). split; [done|].
      apply elem_of_map_to_list. by apply map_lookup_filter_Some.
    + symmetry. apply map_lookup_filter_None. by left.
Qed.

(** What [deleteTripCascade] does to the database, for every fault budget:
    the trip and exactly its expenses are gone, or nothing changed. *)
Lemma deleteTripCascade_run T d f :
  (∃ f', deleteTripCascade T d f =
           (Ok tt,
            mkDb (meta d) (settings d) (delete T (trips d))
                 (filter (λ kv, Expense.tripId kv.2 ≠ T) (expenses d)),
            f'))
  ∨ (f ≠ None ∧ ∃ f', deleteTripCascade T d f = (Rejected, d, f')).
Proof.
  unfold deleteTripCascade, runTx, tx_bind, tx_peek, req_write. simpl.
  destruct (tick f) as [f1|] eqn:Hf1; [|right; eauto using tick_fails].
  destruct (cursor_delete_all_run (index_tripId T (set_trips (delete T) d))
              (mkEnv [Trips; Expenses] readwrite) (set_trips (delete T) d) f1)
    as [[-> Hne]|(f2 & -> & Hnone)]; [by repeat constructor|done|..].
  { right. split; [|eauto]. intros ->. simpl in Hf1. by simplify_eq. }
  unfold commit. destruct (tick f2) as [f3|] eqn:Hf3.
  - left. exists f3. f_equal. f_equal. unfold set_expenses, set_trips. simpl. f_equal.
    apply (delete_keys_index T (set_trips (delete T) d)).
  - right. split; [|eauto]. intros ->.
    rewrite (Hnone (tick_Some_None _ _ Hf1 eq_refl)) in Hf3. done.
Qed.

(** C1. After a successful [deleteTripCascade T] the trip [T] is absent and
    no expense with [tripId = T] is left (all other records are kept); the two
    deletions sit in one transaction, so for every fault of the storage engine
    the database is either in that state or exactly as before; without a
    fault the operation succeeds. *)
Theorem deleteTripCascade_atomic (T : string) (d : Db) (f : fault) :
  let out := deleteTripCascade T d f in
  let d' := out.1.2 in
  ((out.1.1 = Ok tt
    ∧ trips d' !! T = None
    ∧ filter (λ kv, Expense.tripId kv.2 = T) (expenses d') = ∅
    ∧ trips d' = delete T (trips d)
    ∧ expenses d' = filter (λ kv, Expense.tripId kv.2 ≠ T) (expenses d)
    ∧ meta d' = meta d ∧ settings d' = settings d)
   ∨ (out.1.1 = Rejected ∧ d' = d))
  ∧ (deleteTripCascade T d None).1.1 = Ok tt.
Proof.
  simpl. split.
  - destruct (deleteTripCascade_run T d f) as [(f' & ->)|(_ & f' & ->)]; simpl.
    + left. split_and!; try done.
      * apply lookup_delete_eq.
      * apply map_eq. intros k. rewrite lookup_empty.
        apply map_lookup_filter_None. right. intros e He. simpl.
        apply map_lookup_filter_Some in He as [_ He]. simpl in He. naive_solver.
    + by right.
  - by destruct (deleteTripCascade_run T d None) as [(f' & ->)|(? & _)].
Qed.

(** ** Conversion and rounding *)

Ltac to_Q :=
  unfold Qcle, Qclt, Qcplus, Qcminus, Qcopp, Qcmult, Qcdiv, Qcinv, Q2Qc, Qc_of_Z in *;
  simpl this in *; rewrite ?Qred_correct in *;
  change (/ inject_Z 2)%Q with (1 # 2)%Q in *;
  change (/ inject_Z 100)%Q with (1 # 100)%Q in *;
  change (inject_Z 100) with 100%Q in *.





(** ** Handlers and the database *)

Section keeps_db_facts.
Context {A B : Type}.

Lemma keeps_db_ret (a : A) : keeps_db (app_ret a).
Proof. by intros w. Qed.

Lemma keeps_db_modify g : keeps_db (modify g).
Proof. by intros w. Qed.

Lemma keeps_db_get_state : keeps_db get_state.
Proof. by intros w. Qed.

Lemma keeps_db_bind (m : App A) (k : A → App B) :
  keeps_db m → (∀ a, keeps_db (k a)) → keeps_db (app_bind m k).
Proof.
  intros Hm Hk w. unfold app_bind. specialize (Hm w).
  destruct (m w) as [a w'|w']; simpl in *; [|done].
  by rewrite Hk.
Qed.

Lemma keeps_db_call (op : Db → fault → Result A * Db * fault) :
  (∀ d f, (op d f).1.2 = d) → keeps_db (call op).
Proof.
  intros Hop w. unfold call. specialize (Hop (db w) (flt w)).
  by destruct (op (db w) (flt w)) as [[[a|] d] f].
Qed.

(** After a call that writes, the database is what the call left, as long
    as the rest of the handler only reads. *)
Lemma db_after_call (op : Db → fault → Result A * Db * fault) (k : A → App B) w :
  (∀ a, keeps_db (k a)) →
  db (world_of (app_bind (call op) k w)) = (op (db w) (flt w)).1.2.
Proof.
  intros Hk. unfold app_bind, call.
  destruct (op (db w) (flt w)) as [[[a|] d] f]; simpl; [|done].
  by rewrite Hk.
Qed.

(** Binding a part that only reads: what it returns satisfies [P], and the
    rest of the handler starts from the same database. *)
Lemma db_after_read (m : App A) (k : A → App B) (P : A → Prop) (Q : Db → Prop) w :
  keeps_db m →
  (∀ a w', m w = Ret a w' → P a) →
  Q (db w) →
  (∀ a w', db w' = db w → P a → Q (db (world_of (k a w')))) →
  Q (db (world_of (app_bind m k w))).
Proof.
  intros Hm HP HQ Hk. unfold app_bind. specialize (Hm w).
  destruct (m w) as [a w'|w'] eqn:Hmw; simpl in *; [|by rewrite Hm].
  apply Hk; eauto.
Qed.
End keeps_db_facts.

Ltac solve_read :=
  intros; unfold runTx, commit, tx_bind, tx_ret, req_read; simpl;
  repeat (match goal with |- context [tick ?f] => destruct (tick f) end; simpl);
  done.

Lemma getSettings_db d f : (getSettings d f).1.2 = d.
Proof. unfold getSettings. solve_read. Qed.

Lemma getTrips_db d f : (getTrips d f).1.2 = d.
Proof. unfold getTrips. solve_read. Qed.

Lemma getTripById_db id d f : (getTripById id d f).1.2 = d.
Proof. unfold getTripById. solve_read. Qed.

Lemma getExpensesByTrip_db id d f : (getExpensesByTrip id d f).1.2 = d.
Proof. unfold getExpensesByTrip. solve_read. Qed.

Lemma getExpenseById_db id d f : (getExpenseById id d f).1.2 = d.
Proof. unfold getExpenseById. solve_read. Qed.

Create HintDb keeps_db.
#[local] Hint Resolve keeps_db_ret keeps_db_modify keeps_db_get_state
  keeps_db_bind keeps_db_call getSettings_db getTrips_db getTripById_db
  getExpensesByTrip_db getExpenseById_db : keeps_db.

Ltac keeps :=
  repeat first
    [ progress intros
    | apply keeps_db_bind
    | apply keeps_db_ret
    | apply keeps_db_modify
    | apply keeps_db_get_state
    | apply keeps_db_call; solve [eauto with keeps_db]
    | solve [eauto with keeps_db]
    | match goal with
      | |- keeps_db (match ?x with _ => _ end) => destruct x
      | |- keeps_db (if ?x then _ else _) => destruct x
      end ].

Lemma loadExpenses_keeps_db : keeps_db loadExpenses.
Proof. unfold loadExpenses. keeps. Qed.

Lemma setExpenseDefaults_keeps_db : keeps_db setExpenseDefaults.
Proof. apply keeps_db_modify. Qed.

Lemma renderFilterOptions_keeps_db : keeps_db renderFilterOptions.
Proof. apply keeps_db_modify. Qed.

#[local] Hint Resolve loadExpenses_keeps_db setExpenseDefaults_keeps_db
  renderFilterOptions_keeps_db : keeps_db.

Lemma loadAll_keeps_db : keeps_db loadAll.
Proof. unfold loadAll. keeps. Qed.

Lemma refreshUI_keeps_db : keeps_db refreshUI.
Proof. unfold refreshUI, renderTripList. keeps. Qed.

#[local] Hint Resolve loadAll_keeps_db refreshUI_keeps_db : keeps_db.

(** ** Expense form *)

Lemma upsertExpense_db e d f :
  (upsertExpense e d f).1.2 = d
  ∨ (upsertExpense e d f).1.2 = set_expenses <[Expense.id e := e]> d.
Proof.
  unfold upsertExpense, runTx, commit, req_write. simpl.
  destruct (tick f) as [f1|]; simpl; [|by left].
  destruct (tick f1); simpl; [by right|by left].
Qed.

Lemma with_createdAt_same (e : Expense.t) :
  Expense.with_createdAt (Expense.createdAt e) e = e.
Proof. by destruct e. Qed.

(** [handleExpenseSubmit] writes nothing, or exactly the collected expense
    (with the creation time it settled on) under its own id. *)
Lemma handleExpenseSubmit_db form uid now nowLocal w :
  let w' := world_of (handleExpenseSubmit form uid now nowLocal w) in
  db w' = db w
  ∨ ∃ trip c,
      let e := collectExpenseFormData (app w) trip form uid now nowLocal in
      activeTrip (app w) = Some trip
      ∧ validateExpense e trip = None
      ∧ db w' = set_expenses <[Expense.id e := Expense.with_createdAt c e]> (db w).
Proof.
  simpl. remember (db (world_of (handleExpenseSubmit form uid now nowLocal w))) as d' eqn:Hd'.
  unfold handleExpenseSubmit, app_bind at 1, get_state in Hd'.
  destruct (activeTrip (app w)) as [trip|] eqn:Htrip; [|by left].
  set (e := collectExpenseFormData (app w) trip form uid now nowLocal) in *.
  destruct (validateExpense e trip) eqn:Hval; [by left|].
  cut (d' = db w
       ∨ ∃ c, d' = set_expenses <[Expense.id e := Expense.with_createdAt c e]> (db w)).
  { intros [?|[c Hc]]; [by left|]. right. by exists trip, c. }
  subst d'.
  apply (db_after_read _ _ (λ e', ∃ c, e' = Expense.with_createdAt c e)
           (λ d, d = db w
                 ∨ ∃ c, d = set_expenses <[Expense.id e := Expense.with_createdAt c e]> (db w))).
  - keeps.
  - intros e' w' Hret.
    assert (∃ c, e = Expense.with_createdAt c e) as Hsame
      by (exists (Expense.createdAt e); by rewrite with_createdAt_same).
    destruct (editing (editingExpenseId (app w))) as [id|];
      [|by injection Hret as <- _].
    unfold app_bind, call in Hret.
    destruct (getExpenseById id (db w) (flt w)) as [[[existing|] d1] f1]; [|done].
    destruct existing as [old|]; [|by injection Hret as <- _].
    destruct (bool_decide (Expense.createdAt old = 0%Z));
      injection Hret as <- _; eauto.
  - by left.
  - intros e' w1 Hw1 [c ->]. rewrite db_after_call; [|keeps].
    destruct (upsertExpense_db (Expense.with_createdAt c e) (db w1) (flt w1)) as [->| ->];
      rewrite Hw1; [by left|]. right. by exists c.
Qed.








(** ** Tags *)

Section ends_with_facts.
Context {A B : Type}.

Lemma ends_with_ret (P : A → Prop) (a : A) : P a → ends_with P (app_ret a).
Proof. by intros Ha w. Qed.

Lemma ends_with_bind (P : B → Prop) (m : App A) (k : A → App B) :
  (∀ a, ends_with P (k a)) → ends_with P (app_bind m k).
Proof.
  intros Hk w. unfold app_bind. destruct (m w) as [a w'|w']; [|done]. apply Hk.
Qed.
End ends_with_facts.

Lemma slice0_length (n : nat) (s : string) :
  (String.length (JsString.slice0 n s) ≤ n)%nat.
Proof.
  unfold JsString.slice0. revert s.
  induction n as [|n IH]; intros [|a s]; simpl; try lia.
  specialize (IH s). lia.
Qed.

Lemma collected_tags (s : AppState) (trip : Trip.t) (form : ExpenseForm)
    (uid : string) (now : Z) (nowLocal : string) :
  let e := collectExpenseFormData s trip form uid now nowLocal in
  (length (Expense.tags e) ≤ 10)%nat
  ∧ Forall (λ t, (String.length t ≤ 24)%nat) (Expense.tags e).
Proof.
  simpl. split.
  - rewrite length_map, length_take. lia.
  - apply List.Forall_forall. intros t Ht.
    apply List.in_map_iff in Ht as (t' & <- & _).
    apply slice0_length.
Qed.

Lemma validateExpense_not_max_tags (exp : Expense.t) (trip : Trip.t) :
  (length (Expense.tags exp) ≤ 10)%nat →
  validateExpense exp trip ≠ Some "Maximum 10 tags.".
Proof.
  intros Hlen. unfold validateExpense.
  repeat match goal with
         | |- (if ?b then Some ?m else _) ≠ _ =>
             lazymatch m with
             | "Maximum 10 tags." => fail
             | _ => destruct b; [done|]
             end
         end.
  case_bool_decide; [lia|done].
Qed.

Lemma handleExpenseSubmit_status form uid now nowLocal :
  ends_with (λ msg, msg ≠ "Maximum 10 tags.")
            (handleExpenseSubmit form uid now nowLocal).
Proof.
  unfold handleExpenseSubmit. apply ends_with_bind. intros s.
  destruct (activeTrip s) as [trip|]; [|by apply ends_with_ret].
  destruct (validateExpense _ trip) as [msg|] eqn:Hval.
  - apply ends_with_ret. intros ->.
    eapply validateExpense_not_max_tags; [|exact Hval]. apply collected_tags.
  - do 4 (apply ends_with_bind; intros ?). apply ends_with_ret.
    by destruct (bool_decide _).
Qed.

(** C10. The tags of a submitted expense are cut to ten entries of at most
    24 characters before validation: the stored expense obeys both limits,
    the handler never ends on 'Maximum 10 tags.', and an input with twelve
    tags is accepted and stored with its first ten. *)
Theorem tags_truncated_never_rejected
    (form : ExpenseForm) (uid : string) (now : Z) (nowLocal : string) (w : World) :
  let res := handleExpenseSubmit form uid now nowLocal w in
  (∀ trip,
     validateExpense (collectExpenseFormData (app w) trip form uid now nowLocal) trip
     ≠ Some "Maximum 10 tags.")
  ∧ status_of res ≠ Some "Maximum 10 tags."
  ∧ (db (world_of res) = db w
     ∨ ∃ e, db (world_of res) = set_expenses <[Expense.id e := e]> (db w)
            ∧ (length (Expense.tags e) ≤ 10)%nat
            ∧ Forall (λ t, (String.length t ≤ 24)%nat) (Expense.tags e))
  ∧ status_of many_tags_result = Some "Expense added."
  ∧ (Expense.tags <$> (expenses (db (world_of many_tags_result)) !! "exp_1"))
    = Some ["a"; "b"; "c"; "d"; "e"; "f"; "g"; "h"; "i"; "j"].
Proof.
  simpl. split_and!.
  - intros trip. apply validateExpense_not_max_tags, collected_tags.
  - pose proof (handleExpenseSubmit_status form uid now nowLocal w) as H.
    destruct (handleExpenseSubmit form uid now nowLocal w); simpl; [|done].
    by intros [= ->].
  - destruct (handleExpenseSubmit_db form uid now nowLocal w)
      as [?|(trip & c & _ & _ & Hd)]; [by left|].
    right. eexists. split; [exact Hd|].
    apply (collected_tags (app w) trip form uid now nowLocal).
  - by vm_compute.
  - by vm_compute.
Qed.

(** ** Bootstrap *)

Lemma seeded_lookup {V} (key : string) (v : V) (m : gmap string V) k :
  seeded key v m !! k
  = if decide (k = key) then Some (default v (m !! key)) else m !! k.
Proof.
  unfold seeded. destruct (m !! key) as [x|] eqn:Hkey; case_decide; subst; simpl.
  - done.
  - done.
  - apply lookup_insert_eq.
  - by apply lookup_insert_ne.
Qed.

Lemma seeded_keeps {V} (key : string) (v : V) (m : gmap string V) k x :
  m !! k = Some x → seeded key v m !! k = Some x.
Proof.
  intros Hk. rewrite seeded_lookup. case_decide; [subst|done]. by rewrite Hk.
Qed.

Lemma seeded_idemp {V} (key : string) (v : V) (m : gmap string V) :
  seeded key v (seeded key v m) = seeded key v m.
Proof.
  unfold seeded at 1. rewrite seeded_lookup, decide_True; done.
Qed.

Lemma seeded_present {V} (key : string) (v : V) (m : gmap string V) :
  is_Some (m !! key) → seeded key v m = m.
Proof. intros [x Hx]. unfold seeded. by rewrite Hx. Qed.

Lemma bootstrapped_idemp d : bootstrapped (bootstrapped d) = bootstrapped d.
Proof.
  unfold bootstrapped. cbn [meta settings trips expenses]. f_equal.
  - apply seeded_idemp.
  - set (m2 := seeded "paymentMethods" _ (seeded "categories" _ (settings d))).
    assert (is_Some (m2 !! "categories")) as Hc
      by (unfold m2; rewrite !seeded_lookup, decide_False, decide_True; done).
    assert (is_Some (m2 !! "paymentMethods")) as Hp
      by (unfold m2; rewrite seeded_lookup, decide_True; done).
    by rewrite (seeded_present "categories" _ m2 Hc), (seeded_present "paymentMethods" _ m2 Hp).
Qed.

Lemma seed_if_absent_run {V} s (get : Db → gmap string V) set key v env d f :
  s ∈ tx_stores env → tx_mode env = readwrite →
  (seed_if_absent s get set key v env d f = Failed ∧ f ≠ None)
  ∨ ∃ f', seed_if_absent s get set key v env d f
          = Done tt (match get d !! key with
                     | Some _ => d
                     | None => set <[key := v]> d
                     end) f'
          ∧ (f = None → f' = None).
Proof.
  intros Hin Hmode. unfold seed_if_absent, tx_bind, req_read.
  rewrite bool_decide_eq_true_2; [|done].
  destruct (tick f) as [f1|] eqn:Hf1; [|left; eauto using tick_fails].
  destruct (get d !! key) as [x|].
  - right. exists f1. eauto using tick_Some_None.
  - unfold req_write. rewrite bool_decide_eq_true_2, Hmode; [|done].
    destruct (tick f1) as [f2|] eqn:Hf2.
    + right. exists f2. split; [done|]. intros ->. eauto using tick_Some_None.
    + left. split; [done|]. intros ->.
      by rewrite (tick_Some_None _ _ Hf1 eq_refl) in Hf2.
Qed.

(** What [initializeDb] does, for every fault budget. *)
Lemma initializeDb_run d f :
  (∃ f', initializeDb d f = (Ok tt, bootstrapped d, f'))
  ∨ (f ≠ None ∧ initializeDb d f = (Rejected, d, None)).
Proof.
  unfold initializeDb, runTx, tx_bind.
  set (env := mkEnv [Meta; SettingsStore] readwrite).
  destruct (seed_if_absent_run Meta meta set_meta "schemaVersion" SCHEMA_VERSION
              env d f) as [[-> Hf]|(f1 & -> & H1)];
    [by repeat constructor|done|by right|].
  set (d1 := match meta d !! "schemaVersion" with Some _ => d | None => _ end).
  destruct (seed_if_absent_run SettingsStore settings set_settings "categories"
              (Settings.categories DEFAULT_SETTINGS) env d1 f1) as [[-> Hf]|(f2 & -> & H2)];
    [by repeat constructor|done|right; naive_solver|].
  set (d2 := match settings d1 !! "categories" with Some _ => d1 | None => _ end).
  destruct (seed_if_absent_run SettingsStore settings set_settings "paymentMethods"
              (Settings.paymentMethods DEFAULT_SETTINGS) env d2 f2) as [[-> Hf]|(f3 & -> & H3)];
    [by repeat constructor|done|right; naive_solver|].
  unfold commit. destruct (tick f3) as [f4|] eqn:Hf4.
  - left. exists f4. do 2 f_equal. unfold bootstrapped, seeded, d2, d1.
    destruct d as [m s t e]; simpl.
    destruct (m !! "schemaVersion"); simpl;
      destruct (s !! "categories"); simpl;
      destruct (_ !! "paymentMethods"); done.
  - right. split; [|done]. intros ->.
    rewrite (H3 (H2 (H1 eq_refl))) in Hf4. done.
Qed.

(** C5. [initializeDb] never changes a record that exists: the schema
    marker and every settings record keep their value, whatever the outcome.
    When it succeeds each of the three keys holds its old value if it had one
    and the default otherwise, independently of the other two; trips and
    expenses are untouched; a rejected call changes nothing; without a fault
    the call succeeds; and a further call after a success changes nothing. *)
Theorem initializeDb_idempotent (d : Db) (f f2 : fault) :
  let out := initializeDb d f in
  let d' := out.1.2 in
  (∀ v, meta d !! "schemaVersion" = Some v → meta d' !! "schemaVersion" = Some v)
  ∧ (∀ k v, settings d !! k = Some v → settings d' !! k = Some v)
  ∧ (out.1.1 = Ok tt →
       meta d' !! "schemaVersion"
       = Some (default SCHEMA_VERSION (meta d !! "schemaVersion"))
       ∧ settings d' !! "categories"
         = Some (default (Settings.categories DEFAULT_SETTINGS)
                         (settings d !! "categories"))
       ∧ settings d' !! "paymentMethods"
         = Some (default (Settings.paymentMethods DEFAULT_SETTINGS)
                         (settings d !! "paymentMethods"))
       ∧ (initializeDb d' f2).1.2 = d')
  ∧ trips d' = trips d ∧ expenses d' = expenses d
  ∧ (out.1.1 = Rejected → d' = d)
  ∧ (initializeDb d None).1.1 = Ok tt.
Proof.
  simpl. destruct (initializeDb_run d f) as [[f' ->]|[Hf ->]]; simpl.
  - split_and!; try done.
    + intros v Hv. by apply seeded_keeps.
    + intros k v Hv. by do 2 apply seeded_keeps.
    + intros _. split_and!.
      * by rewrite seeded_lookup, decide_True.
      * by rewrite !seeded_lookup, decide_False, decide_True.
      * by rewrite !seeded_lookup, decide_True.
      * destruct (initializeDb_run (bootstrapped d) f2) as [[f'' ->]|[_ ->]]; simpl;
          [apply bootstrapped_idemp|done].
    + by destruct (initializeDb_run d None) as [[f'' ->]|[? _]].
  - split_and!; try done.
    by destruct (initializeDb_run d None) as [[f'' ->]|[? _]].
Qed.

(** ** Settings update *)

(** C6. A settings form whose categories or payment methods come out empty
    is refused before [saveSettings] is reached: the handler ends on the
    error message and the whole database, so both stored lists, and the
    settings held in memory are as they were. *)
Theorem empty_settings_rejected
    (settingsCategories settingsPayments : string) (w : World) :
  parseLines settingsCategories = [] ∨ parseLines settingsPayments = [] →
  let res := handleSettingsSubmit settingsCategories settingsPayments w in
  status_of res = Some "Categories and payment methods must not be empty."
  ∧ world_of res = w
  ∧ settings (db (world_of res)) !! "categories" = settings (db w) !! "categories"
  ∧ settings (db (world_of res)) !! "paymentMethods"
    = settings (db w) !! "paymentMethods".
Proof.
  intros Hempty. simpl. unfold handleSettingsSubmit.
  destruct Hempty as [-> | ->]; simpl; [done|].
  by rewrite orb_true_r.
Qed.

(** An empty payment-methods text against stored, non-empty lists. *)
Lemma empty_settings_rejected_witness :
  let w := mkWorld (app scenario_world)
             (mkDb ∅ {[ "categories" := ["Food"]; "paymentMethods" := ["Cash"] ]} ∅ ∅)
             None in
  let res := handleSettingsSubmit "Food" "  " w in
  status_of res = Some "Categories and payment methods must not be empty."
  ∧ settings (db (world_of res)) !! "paymentMethods" = Some ["Cash"].
Proof.
  intros w res.
  destruct (empty_settings_rejected "Food" "  " w) as (Hst & Hw & _ & Hp);
    [right; reflexivity|].
  split; [exact Hst|]. fold res in Hp. rewrite Hp. reflexivity.
Defined.

(** ** Trip update *)

Lemma read_tx_run {A} (s : StoreName) (g : Db → A) d f :
  (∃ f', runTx [s] readonly (req_read s g) d f = (Ok (g d), d, f')
         ∧ (f = None → f' = None))
  ∨ (f ≠ None ∧ runTx [s] readonly (req_read s g) d f = (Rejected, d, None)).
Proof.
  unfold runTx, req_read, commit. simpl.
  rewrite bool_decide_eq_true_2; [|by apply list_elem_of_here].
  destruct (tick f) as [f1|] eqn:Hf1; [|right; eauto using tick_fails].
  destruct (tick f1) as [f2|] eqn:Hf2.
  - left. exists f2. split; [done|]. intros ->. eauto using tick_Some_None.
  - right. split; [|done]. intros ->.
    by rewrite (tick_Some_None _ _ Hf1 eq_refl) in Hf2.
Qed.

Lemma expenses_of_trip_nonempty (d : Db) (tripId k : string) (e : Expense.t) :
  expenses d !! k = Some e → Expense.tripId e = tripId →
  (0 < length (map_to_list (filter (λ kv, Expense.tripId kv.2 = tripId) (expenses d))).*2)%nat.
Proof.
  intros Hk He.
  assert ((k, e) ∈ map_to_list (filter (λ kv, Expense.tripId kv.2 = tripId) (expenses d)))
    as Hin by (apply elem_of_map_to_list; by apply map_lookup_filter_Some).
  rewrite length_fmap.
  destruct (map_to_list _) as [|x l]; [by apply elem_of_nil in Hin|simpl; lia].
Qed.

(** The edit check refuses a change of base currency on a trip with
    expenses, and reads only. *)
Lemma checkTripEdit_refuses id newTrip old k e w :
  trips (db w) !! id = Some old →
  Trip.baseCurrency old ≠ Trip.baseCurrency newTrip →
  expenses (db w) !! k = Some e → Expense.tripId e = Trip.id old →
  (∃ f', checkTripEdit id newTrip w = Ret None (mkWorld (app w) (db w) f')
         ∧ (flt w = None → f' = None))
  ∨ (flt w ≠ None ∧ ∃ f', checkTripEdit id newTrip w = Raise (mkWorld (app w) (db w) f')).
Proof.
  intros Hold Hcur Hk He.
  remember (checkTripEdit id newTrip w) as r eqn:Hr.
  unfold checkTripEdit in Hr. unfold app_bind at 1 in Hr. unfold call at 1 in Hr.
  unfold getTripById in Hr.
  destruct (read_tx_run Trips (λ d, trips d !! id) (db w) (flt w))
    as [(f1 & Hrun & Hf1)|[Hf Hrun]]; rewrite Hrun in Hr;
    [|right; split; [done|by eexists]].
  rewrite Hold in Hr. rewrite bool_decide_eq_true_2 in Hr; [|done].
  unfold app_bind, call, getExpensesByTrip in Hr. simpl in Hr.
  destruct (read_tx_run Expenses
              (λ d, (map_to_list
                       (filter (λ kv, Expense.tripId kv.2 = Trip.id old) (expenses d))).*2)
              (db w) f1) as [(f2 & Hrun2 & Hf2)|[Hf Hrun2]]; rewrite Hrun2 in Hr.
  - rewrite bool_decide_eq_true_2 in Hr; [|by eapply expenses_of_trip_nonempty].
    left. exists f2. split; [done|]. auto.
  - right. split; [|by eexists]. intros Hnone. by apply Hf, Hf1.
Qed.

(** C7. Editing a trip that has an expense so that its base currency
    changes writes nothing: the database (so the trip and all its expenses)
    and the application state are as before, whatever the storage engine
    does; the handler never reports an update, and without a fault it ends on
    the validation message of the form or, for a valid form, on the refusal
    message. *)
Theorem baseCurrency_change_rejected
    (form : TripForm) (uid : string) (now : Z) (w : World)
    (id : string) (old : Trip.t) (k : string) (e : Expense.t) :
  editing (editingTripId (app w)) = Some id →
  trips (db w) !! id = Some old →
  expenses (db w) !! k = Some e →
  Expense.tripId e = Trip.id old →
  Trip.baseCurrency old ≠ Trip.baseCurrency (collectTripFormData (app w) form uid now) →
  let res := handleTripSubmit form uid now w in
  db (world_of res) = db w
  ∧ app (world_of res) = app w
  ∧ trips (db (world_of res)) !! id = Some old
  ∧ expenses (db (world_of res)) = expenses (db w)
  ∧ status_of res ≠ Some "Trip updated."
  ∧ (flt w = None →
     status_of res
     = Some (default MSG_BASE_CURRENCY
               (validateTripForm (collectTripFormData (app w) form uid now)))).
Proof.
  intros Hedit Hold Hk He Hcur. simpl.
  set (newTrip := collectTripFormData (app w) form uid now) in *.
  remember (handleTripSubmit form uid now w) as res eqn:Hres.
  assert ((∃ msg, validateTripForm newTrip = Some msg ∧ res = Ret msg w)
          ∨ (validateTripForm newTrip = None
             ∧ ((∃ f', res = Ret MSG_BASE_CURRENCY (mkWorld (app w) (db w) f'))
                ∨ (flt w ≠ None ∧ ∃ f', res = Raise (mkWorld (app w) (db w) f')))))
    as Hmain.
  { unfold handleTripSubmit in Hres. unfold app_bind at 1 in Hres.
    unfold get_state in Hres. fold newTrip in Hres.
    destruct (validateTripForm newTrip) as [msg|] eqn:Hval; [left; by exists msg|].
    right. split; [done|]. rewrite Hedit in Hres. unfold app_bind at 1 in Hres.
    destruct (checkTripEdit_refuses id newTrip old k e w Hold Hcur Hk He)
      as [(f' & Hrun & Hf')|(Hf & f' & Hrun)]; rewrite Hrun in Hres.
    - left. by exists f'.
    - right. split; [done|]. by exists f'. }
  destruct Hmain as [(msg & Hval & ->)|[Hval [[f' ->]|(Hf & f' & ->)]]]; simpl.
  - split_and!; try done; [|by rewrite Hval].
    intros [= ->]. revert Hval. unfold validateTripForm.
    repeat match goal with
           | |- (if ?b then _ else _) = _ → _ => destruct b; [done|]
           end. done.
  - split_and!; try done. by rewrite Hval.
  - by split_and!.
Qed.

(** Changing the scenario trip, which has one expense, from JPY to USD. *)
Lemma baseCurrency_change_rejected_witness :
  let w := mkWorld (with_editingTripId (Some "trip_1") (app scenario_after))
                   (db scenario_after) None in
  let form := mkTripForm "Tokyo" "2024-05-01" "2024-05-10" "usd" "JPY, USD" true
                         (Num (Qc_of_Z 100000)) None in
  let res := handleTripSubmit form "trip_2" 1714700000000%Z w in
  db (world_of res) = db w ∧ status_of res = Some MSG_BASE_CURRENCY.
Proof.
  intros w form res.
  assert (∃ e, expenses (db w) !! "exp_1" = Some e ∧ Expense.tripId e = "trip_1")
    as (e & He & Hid) by (eexists; split; [by vm_compute|done]).
  destruct (baseCurrency_change_rejected form "trip_2" 1714700000000%Z w
              "trip_1" scenario_trip "exp_1" e)
    as (Hdb & _ & _ & _ & _ & Hst); [by vm_compute| |exact He|exact Hid|by vm_compute|].
  { by vm_compute. }
  split; [exact Hdb|]. etransitivity; [exact (Hst eq_refl)|by vm_compute].
Defined.

(** ** Restore *)

(** [restoreBackup] itself does not look at the shape of the payload: with
    both arrays missing it empties the stores and writes the defaults. *)
Remark restoreBackup_missing_arrays (d : Db) :
  restoreBackup (Payload.mk None Payload.Falsy Payload.Falsy None) d None
  = (Ok tt,
     mkDb {[ "schemaVersion" := SCHEMA_VERSION ]}
          (<["paymentMethods" := Settings.paymentMethods DEFAULT_SETTINGS]>
             (<["categories" := Settings.categories DEFAULT_SETTINGS]> ∅))
          ∅ ∅,
     None).
Proof. reflexivity. Qed.

(** C4. A payload whose [trips] or [expenses] is missing or is not an array
    is refused when the file is loaded: the handler ends on the shape error,
    nothing is left pending, and the restore button that follows finds
    nothing to apply, so [restoreBackup] is never called, no store is
    cleared and the database is as it was. *)
Theorem restore_shape_checked (payload : Payload.t) (ok : bool) (w : World) :
  Payload.isArray (Payload.trips payload) = false
  ∨ Payload.isArray (Payload.expenses payload) = false →
  let loaded := handleRestoreFileChange (Some (Parsed payload)) w in
  let applied := applyRestore ok (world_of loaded) in
  status_of loaded = Some (Some MSG_RESTORE_SHAPE)
  ∧ pendingRestore (app (world_of loaded)) = None
  ∧ db (world_of loaded) = db w
  ∧ applied = Ret (Some "Select a valid backup file first.") (world_of loaded)
  ∧ db (world_of applied) = db w.
Proof.
  intros Hshape. simpl.
  assert (handleRestoreFileChange (Some (Parsed payload)) w
          = Ret (Some MSG_RESTORE_SHAPE)
                (mkWorld (with_pendingRestore None (app w)) (db w) (flt w))) as ->.
  { unfold handleRestoreFileChange, app_bind, modify. simpl.
    destruct Hshape as [-> | ->]; simpl; [done|]. by rewrite orb_true_r. }
  done.
Qed.

(** A backup file without the [expenses] array, against the scenario. *)
Lemma restore_shape_checked_witness :
  let payload := Payload.mk (Some "1.0.0") (Payload.Arr []) Payload.Falsy None in
  let loaded := handleRestoreFileChange (Some (Parsed payload)) scenario_after in
  status_of loaded = Some (Some MSG_RESTORE_SHAPE)
  ∧ db (world_of (applyRestore true (world_of loaded))) = db scenario_after.
Proof.
  intros payload loaded.
  destruct (restore_shape_checked payload true scenario_after) as (Hst & _ & _ & _ & Hdb);
    [right; reflexivity|].
  split; [exact Hst|exact Hdb].
Defined.

(** ** Aggregation *)









(** ** Burn rate *)

Lemma daysElapsed_is_spec (tripStart tripEnd now : Z) :
  daysElapsed tripStart tripEnd now = daysElapsed_spec tripStart tripEnd now.
Proof.
  unfold daysElapsed, daysElapsed_spec, MS_PER_DAY.
  change (1000 * 60 * 60 * 24)%Z with 86400000%Z.
  assert (∀ x, Z.max (Z.max x 0 `div` 86400000 + 1) 1
               = Z.max (x `div` 86400000 + 1) 1)%Z as Hclamp.
  { intros x. destruct (Z.lt_ge_cases x 0) as [Hneg|Hpos].
    - rewrite (Z.max_r x 0) by lia. rewrite Z.div_0_l by lia.
      assert (x `div` 86400000 < 0)%Z by (apply Z.div_lt_upper_bound; lia). lia.
    - by rewrite (Z.max_l x 0) by lia. }
  case_bool_decide; [rewrite Z.min_l by lia|rewrite Z.min_r by lia]; apply Hclamp.
Qed.

Lemma daysElapsed_pos (tripStart tripEnd now : Z) :
  (1 ≤ daysElapsed tripStart tripEnd now)%Z.
Proof. unfold daysElapsed. lia. Qed.

(** C9. With the budget enabled the panel shows [total / daysElapsed],
    where [daysElapsed] is the number of whole days from the trip start to
    the earlier of now and the trip end, plus one, and never less than one,
    whatever "now" is. *)
Theorem average_per_day (s : AppState) (dateMs : string → Z) (now : Z) (trip : Trip.t) :
  activeTrip s = Some trip →
  Trip.budgetEnabled trip = true →
  let tripStart := dateMs (Trip.startDate trip +:+ "T00:00") in
  let tripEnd := dateMs (Trip.endDate trip +:+ "T23:59") in
  let days := daysElapsed_spec tripStart tripEnd now in
  (1 ≤ days)%Z
  ∧ ∃ d b, renderDashboard s dateMs now = Some d
           ∧ budgetPanel d = Some b
           ∧ total d = total_of (filteredExpenses s)
           ∧ panel_daysElapsed b = days
           ∧ avgPerDay b = total d / Qc_of_Z days.
Proof.
  intros Htrip Hbudget. simpl. split.
  - rewrite <- daysElapsed_is_spec. apply daysElapsed_pos.
  - unfold renderDashboard. rewrite Htrip, Hbudget.
    eexists _, _. split_and!; try done; simpl; by rewrite daysElapsed_is_spec.
Qed.

(** The scenario on the third day of the trip: 7500 spent, 2500 a day. *)
Lemma average_per_day_witness :
  ∃ d b, renderDashboard (app scenario_after) scenario_dateMs 1714700000000%Z = Some d
         ∧ budgetPanel d = Some b
         ∧ panel_daysElapsed b = 3%Z
         ∧ avgPerDay b = Qc_of_Z 2500.
Proof.
  destruct (average_per_day (app scenario_after) scenario_dateMs 1714700000000%Z
              scenario_trip) as (_ & d & b & Hd & Hb & Htot & Hdays & Havg);
    [by vm_compute|done|].
  exists d, b. split_and!; [exact Hd|exact Hb|by rewrite Hdays|].
  rewrite Havg, Htot. apply Qc_is_canon. by vm_compute.
Defined.

(** The delete button of the trip list does the cascade or nothing. *)
Lemma handleTripDelete_db (tripId : string) (ok : bool) (w : World) :
  let d' := db (world_of (handleTripDelete tripId ok w)) in
  d' = db w
  ∨ d' = mkDb (meta (db w)) (settings (db w)) (delete tripId (trips (db w)))
              (filter (λ kv, Expense.tripId kv.2 ≠ tripId) (expenses (db w))).
Proof.
  simpl. remember (db (world_of (handleTripDelete tripId ok w))) as d' eqn:Hd'.
  unfold handleTripDelete, app_bind at 1, get_state in Hd'.
  destruct (negb (JsString.truthy tripId)); [by left|].
  destruct (find _ (st_trips (app w))); [|by left].
  destruct (negb ok); [by left|].
  rewrite db_after_call in Hd'; [|keeps].
  destruct (deleteTripCascade_run tripId (db w) (flt w)) as [[f' Hrun]|(_ & f' & Hrun)];
    rewrite Hrun in Hd'; [by right|by left].
Qed.

(** * Further properties *)

(** ** Single requests *)

Lemma write_tx_run (s : StoreName) (u : Db → Db) d f :
  (∃ f', runTx [s] readwrite (req_write s u) d f = (Ok tt, u d, f')
         ∧ (f = None → f' = None))
  ∨ (f ≠ None ∧ runTx [s] readwrite (req_write s u) d f = (Rejected, d, None)).
Proof.
  unfold runTx, req_write, commit. simpl.
  rewrite bool_decide_eq_true_2; [|by apply list_elem_of_here].
  destruct (tick f) as [f1|] eqn:Hf1; [|right; eauto using tick_fails].
  destruct (tick f1) as [f2|] eqn:Hf2.
  - left. exists f2. split; [done|]. intros ->. eauto using tick_Some_None.
  - right. split; [|done]. intros ->.
    by rewrite (tick_Some_None _ _ Hf1 eq_refl) in Hf2.
Qed.

Lemma read_tx_healthy {A} (s : StoreName) (g : Db → A) d :
  runTx [s] readonly (req_read s g) d None = (Ok (g d), d, None).
Proof.
  destruct (read_tx_run s g d None) as [(f' & -> & Hf)|[? _]]; [|done].
  by rewrite (Hf eq_refl).
Qed.

(** ** Insert and look up *)

(** X1. A successful [upsertExpense] stores the expense under its id and
    touches nothing else: [getExpenseById] gives it back, the expenses of its
    trip contain it, every other expense and every other store is as before.
    A rejected call changes nothing, and without a fault the call succeeds. *)
Theorem upsertExpense_then_get (e : Expense.t) (d : Db) (f : fault) :
  let out := upsertExpense e d f in
  let d' := out.1.2 in
  ((out.1.1 = Ok tt
    ∧ getExpenseById (Expense.id e) d' None = (Ok (Some e), d', None)
    ∧ (∃ l, getExpensesByTrip (Expense.tripId e) d' None = (Ok l, d', None) ∧ e ∈ l)
    ∧ (∀ k, k ≠ Expense.id e → expenses d' !! k = expenses d !! k)
    ∧ trips d' = trips d ∧ meta d' = meta d ∧ settings d' = settings d)
   ∨ (out.1.1 = Rejected ∧ d' = d))
  ∧ (upsertExpense e d None).1.1 = Ok tt.
Proof.
  cbv zeta. unfold upsertExpense. split.
  - destruct (write_tx_run Expenses (set_expenses <[Expense.id e := e]>) d f)
      as [(f' & -> & _)|[_ ->]]; simpl; [left|by right].
    split_and!; try done.
    + unfold getExpenseById. rewrite read_tx_healthy. simpl.
      by rewrite lookup_insert_eq.
    + eexists. unfold getExpensesByTrip. rewrite read_tx_healthy. split; [done|].
      simpl. apply list_elem_of_fmap. exists (Expense.id e, e). split; [done|].
      apply elem_of_map_to_list, map_lookup_filter_Some.
      split; [apply lookup_insert_eq|done].
    + intros k Hk. by apply lookup_insert_ne.
  - by destruct (write_tx_run Expenses (set_expenses <[Expense.id e := e]>) d None)
      as [(f' & -> & _)|[? _]].
Qed.

(** X2. A successful [deleteExpense] removes the record with that id and
    nothing else; when there is no such record the database is unchanged and
    the call still succeeds. A rejected call changes nothing. *)
Theorem deleteExpense_removes (id : string) (d : Db) (f : fault) :
  let out := deleteExpense id d f in
  let d' := out.1.2 in
  ((out.1.1 = Ok tt
    ∧ expenses d' !! id = None
    ∧ (∀ k, k ≠ id → expenses d' !! k = expenses d !! k)
    ∧ trips d' = trips d ∧ meta d' = meta d ∧ settings d' = settings d
    ∧ (expenses d !! id = None → d' = d))
   ∨ (out.1.1 = Rejected ∧ d' = d))
  ∧ (deleteExpense id d None).1.1 = Ok tt.
Proof.
  cbv zeta. unfold deleteExpense. split.
  - destruct (write_tx_run Expenses (set_expenses (delete id)) d f)
      as [(f' & -> & _)|[_ ->]]; simpl; [left|by right].
    split_and!; try done.
    + apply lookup_delete_eq.
    + intros k Hk. by apply lookup_delete_ne.
    + intros Hid. destruct d as [m s t es]. unfold set_expenses. simpl in *.
      f_equal. by apply delete_id.
  - by destruct (write_tx_run Expenses (set_expenses (delete id)) d None)
      as [(f' & -> & _)|[? _]].
Qed.
(** ** Sequences of writes *)

Lemma tx_writes_req s u env :
  s ∈ tx_stores env → tx_mode env = readwrite → tx_writes (req_write s u) env u.
Proof.
  intros Hin Hmode d f. unfold req_write.
  rewrite bool_decide_eq_true_2, Hmode; [|done].
  destruct (tick f) as [f1|] eqn:Hf1; [|left; eauto using tick_fails].
  right. exists f1. eauto using tick_Some_None.
Qed.

Lemma tx_writes_ret env : tx_writes (tx_ret tt) env id.
Proof. intros d f. right. by exists f. Qed.

Lemma tx_writes_bind m k env u1 u2 :
  tx_writes m env u1 → tx_writes k env u2 →
  tx_writes (tx_bind m (λ _, k)) env (u2 ∘ u1).
Proof.
  intros Hm Hk d f. unfold tx_bind.
  destruct (Hm d f) as [[-> Hf]|(f1 & -> & Hf1)]; [by left|].
  destruct (Hk (u1 d) f1) as [[-> Hf]|(f2 & -> & Hf2)].
  - left. split; [done|]. intros ->. by apply Hf, Hf1.
  - right. exists f2. split; [done|]. auto.
Qed.

Lemma tx_writes_each {V} (body : V → Tx unit) (upd : V → Db → Db) env l :
  (∀ x, tx_writes (body x) env (upd x)) →
  tx_writes (tx_each body l) env (λ d, fold_left (λ acc x, upd x acc) l d).
Proof.
  intros Hbody. induction l as [|x l IH]; simpl.
  - apply tx_writes_ret.
  - intros d f. destruct (tx_writes_bind _ _ _ _ _ (Hbody x) IH d f) as [?|?]; eauto.
Qed.

Lemma tx_writes_ext m env u1 u2 :
  (∀ d, u1 d = u2 d) → tx_writes m env u1 → tx_writes m env u2.
Proof.
  intros Heq Hm d f. destruct (Hm d f) as [?|(f' & ? & ?)]; [by left|].
  right. exists f'. by rewrite <- Heq.
Qed.

Lemma runTx_writes names mode m u d f :
  tx_writes m (mkEnv names mode) u →
  (∃ f', runTx names mode m d f = (Ok tt, u d, f') ∧ (f = None → f' = None))
  ∨ (f ≠ None ∧ runTx names mode m d f = (Rejected, d, None)).
Proof.
  intros Hm. unfold runTx, commit.
  destruct (Hm d f) as [[-> Hf]|(f1 & -> & Hf1)]; [by right|].
  destruct (tick f1) as [f2|] eqn:Hf2.
  - left. exists f2. split; [done|]. intros Hf. eauto using tick_Some_None.
  - right. split; [|done]. intros Hf. by rewrite (Hf1 Hf) in Hf2.
Qed.

Ltac tx_writes :=
  repeat first
    [ apply tx_writes_bind
    | apply tx_writes_req; [by repeat constructor|done]
    | apply tx_writes_ret ].

(** ** Settings *)

Lemma saveSettings_run (s : Settings.t) d f :
  (∃ f', saveSettings s d f
         = (Ok tt,
            set_settings (λ m, <["paymentMethods" := Settings.paymentMethods s]>
                                 (<["categories" := Settings.categories s]> m)) d,
            f') ∧ (f = None → f' = None))
  ∨ (f ≠ None ∧ saveSettings s d f = (Rejected, d, None)).
Proof.
  unfold saveSettings. eapply runTx_writes.
  eapply tx_writes_ext; [|tx_writes]. intros d0. by destruct d0.
Qed.

Lemma getSettings_healthy d :
  getSettings d None
  = (Ok (Settings.mk
           (default (Settings.categories DEFAULT_SETTINGS) (settings d !! "categories"))
           (default (Settings.paymentMethods DEFAULT_SETTINGS)
                    (settings d !! "paymentMethods"))),
     d, None).
Proof. reflexivity. Qed.

(** X3. What [saveSettings] stores is what [getSettings] gives back, empty
    lists included; trips, expenses and the schema marker are untouched. Both
    lists are written together or not at all. On a store without the two
    records [getSettings] gives the default lists. *)
Theorem saveSettings_then_get (s : Settings.t) (d : Db) (f : fault) :
  let out := saveSettings s d f in
  let d' := out.1.2 in
  ((out.1.1 = Ok tt
    ∧ getSettings d' None = (Ok s, d', None)
    ∧ trips d' = trips d ∧ expenses d' = expenses d ∧ meta d' = meta d)
   ∨ (out.1.1 = Rejected ∧ d' = d))
  ∧ (saveSettings s d None).1.1 = Ok tt
  ∧ (getSettings (mkDb (meta d) ∅ (trips d) (expenses d)) None).1.1
    = Ok DEFAULT_SETTINGS.
Proof.
  cbv zeta. split_and!.
  - destruct (saveSettings_run s d f) as [(f' & -> & _)|[_ ->]]; [left|by right].
    split_and!; try done. rewrite getSettings_healthy. simpl.
    rewrite lookup_insert_ne, !lookup_insert_eq by done. by destruct s.
  - by destruct (saveSettings_run s d None) as [(f' & -> & _)|[? _]].
  - done.
Qed.
(** ** Full restore *)

Lemma put_all_snoc {V} (key : V → string) (l : list V) (x : V) (m : gmap string V) :
  put_all key (l ++ [x]) m = <[key x := x]> (put_all key l m).
Proof. unfold put_all. by rewrite fold_left_app. Qed.

(** Later records win. *)
Lemma put_all_lookup {V} (key : V → string) (l : list V) (m : gmap string V) k :
  put_all key l m !! k
  = from_option Some (m !! k) (list.last (filter (λ x, key x = k) l)).
Proof.
  induction l as [|x l IH] using rev_ind; [done|].
  rewrite put_all_snoc, list.filter_app.
  destruct (decide (key x = k)) as [<-|Hne].
  - rewrite list.filter_singleton_True by done. by rewrite lookup_insert_eq, last_snoc.
  - rewrite list.filter_singleton_False by done.
    by rewrite lookup_insert_ne, app_nil_r.
Qed.

(** With distinct keys the store holds exactly the records of the list. *)
Lemma put_all_lookup_NoDup {V} (key : V → string) (l : list V) k x :
  NoDup (key <$> l) →
  put_all key l ∅ !! k = Some x ↔ x ∈ l ∧ key x = k.
Proof.
  intros Hnd. rewrite put_all_lookup, lookup_empty.
  induction l as [|y l IH] using rev_ind.
  - simpl. split; [done|]. by intros [?%elem_of_nil _].
  - rewrite fmap_app in Hnd. apply list.NoDup_app in Hnd as (Hnd & Hy & _).
    rewrite list.filter_app.
    destruct (decide (key y = k)) as [<-|Hne].
    + rewrite list.filter_singleton_True by done. rewrite last_snoc. simpl. split.
      * intros [= ->]. split; [|done]. apply elem_of_app. right. by apply list_elem_of_singleton.
      * intros [[Hin| ->%list_elem_of_singleton]%elem_of_app Hkey]; [|done].
        exfalso. apply (Hy (key x)); [by apply list_elem_of_fmap_2|].
        rewrite Hkey. simpl. by apply list_elem_of_singleton.
    + rewrite list.filter_singleton_False by done. rewrite app_nil_r, (IH Hnd). split.
      * intros [Hin Hkey]. split; [|done]. apply elem_of_app. by left.
      * intros [[Hin| ->%list_elem_of_singleton]%elem_of_app Hkey]; done.
Qed.

Lemma fold_put_trips (ts : list Trip.t) d :
  fold_left (λ acc x, set_trips <[Trip.id x := x]> acc) ts d
  = set_trips (put_all Trip.id ts) d.
Proof.
  revert d. induction ts as [|t ts IH]; intros d; simpl; [by destruct d|].
  by rewrite IH.
Qed.

Lemma fold_put_expenses (es : list Expense.t) d :
  fold_left (λ acc x, set_expenses <[Expense.id x := x]> acc) es d
  = set_expenses (put_all Expense.id es) d.
Proof.
  revert d. induction es as [|e es IH]; intros d; simpl; [by destruct d|].
  by rewrite IH.
Qed.

Lemma restoreBackup_run sv ts es cfg d f :
  (∃ f', restoreBackup (Payload.mk sv (Payload.Arr ts) (Payload.Arr es) cfg) d f
         = (Ok tt, restored sv cfg ts es, f') ∧ (f = None → f' = None))
  ∨ (f ≠ None
     ∧ restoreBackup (Payload.mk sv (Payload.Arr ts) (Payload.Arr es) cfg) d f
       = (Rejected, d, None)).
Proof.
  unfold restoreBackup, tx_for_of.
  cbn [Payload.trips Payload.expenses Payload.schemaVersion Payload.config].
  match goal with
  | |- (∃ f', runTx ?n ?m ?h d f = _ ∧ _) ∨ _ =>
      assert (tx_writes h (mkEnv n m) (λ _, restored sv cfg ts es)) as Hw
  end.
  { eapply tx_writes_ext; cycle 1.
    - repeat first
        [ apply tx_writes_bind
        | apply tx_writes_req; [by repeat constructor|done]
        | apply (tx_writes_each _ (λ x, set_trips <[Trip.id x := x]>));
            intros; apply tx_writes_req; [by repeat constructor|done]
        | apply (tx_writes_each _ (λ x, set_expenses <[Expense.id x := x]>));
            intros; apply tx_writes_req; [by repeat constructor|done] ].
    - intros d0. unfold compose. by rewrite fold_put_expenses, fold_put_trips. }
  exact (runTx_writes _ _ _ _ d f Hw).
Qed.

(** X4. A restore from a payload with both arrays replaces everything or
    nothing: when it goes through, the database holds the schema marker of the
    payload (the current one when it is absent or empty), the two settings
    lists of the payload as they are (the defaults for an absent one), and the
    trips and expenses of the payload under their ids, the last one of several
    with the same id; nothing of the old content is left. When a request
    fails the old database is intact. *)
Theorem restoreBackup_replaces
    (sv : option string) (ts : list Trip.t) (es : list Expense.t)
    (cfg : option Payload.config_t) (d : Db) (f : fault) :
  let payload := Payload.mk sv (Payload.Arr ts) (Payload.Arr es) cfg in
  let out := restoreBackup payload d f in
  ((out.1.1 = Ok tt ∧ out.1.2 = restored sv cfg ts es)
   ∨ (out.1.1 = Rejected ∧ out.1.2 = d))
  ∧ (restoreBackup payload d None).1.1 = Ok tt
  ∧ (∀ k, trips (restored sv cfg ts es) !! k
          = list.last (filter (λ t, Trip.id t = k) ts))
  ∧ (∀ k, expenses (restored sv cfg ts es) !! k
          = list.last (filter (λ e, Expense.id e = k) es))
  ∧ meta (restored sv cfg ts es) !! "schemaVersion"
    = Some (str_or sv SCHEMA_VERSION)
  ∧ settings (restored sv cfg ts es) !! "categories"
    = Some (default (Settings.categories DEFAULT_SETTINGS)
                    (cfg ≫= Payload.categories))
  ∧ settings (restored sv cfg ts es) !! "paymentMethods"
    = Some (default (Settings.paymentMethods DEFAULT_SETTINGS)
                    (cfg ≫= Payload.paymentMethods)).
Proof.
  cbv zeta. split_and!.
  - destruct (restoreBackup_run sv ts es cfg d f) as [(f' & -> & _)|[_ ->]];
      [by left|by right].
  - by destruct (restoreBackup_run sv ts es cfg d None) as [(f' & -> & _)|[? _]].
  - intros k. simpl. rewrite put_all_lookup, lookup_empty.
    by destruct (list.last _).
  - intros k. simpl. rewrite put_all_lookup, lookup_empty.
    by destruct (list.last _).
  - done.
  - done.
  - done.
Qed.
(** X5. [clearAllData] behaves, for every fault, as the restore of a
    payload with two empty arrays and no configuration: when it goes through,
    the database is the one a bootstrap builds from nothing (current schema
    marker, default lists, no trip, no expense), and a bootstrap after it
    changes nothing; when it fails the database is intact. *)
Theorem clearAllData_is_empty_restore (d : Db) (f f2 : fault) :
  let out := clearAllData d f in
  (out.1 = (restoreBackup (Payload.mk None (Payload.Arr []) (Payload.Arr []) None) d f).1)
  ∧ ((out.1.1 = Ok tt
      ∧ out.1.2 = bootstrapped (mkDb ∅ ∅ ∅ ∅)
      ∧ trips out.1.2 = ∅ ∧ expenses out.1.2 = ∅
      ∧ (initializeDb out.1.2 f2).1.2 = out.1.2)
     ∨ (out.1.1 = Rejected ∧ out.1.2 = d))
  ∧ (clearAllData d None).1.1 = Ok tt.
Proof.
  cbv zeta.
  assert (clearAllData d f
          = restoreBackup (Payload.mk None (Payload.Arr []) (Payload.Arr []) None) d f)
    as Heq by (destruct f as [[|[|[|[|[|[|[|[|n]]]]]]]]|]; reflexivity).
  assert (clearAllData d None
          = restoreBackup (Payload.mk None (Payload.Arr []) (Payload.Arr []) None) d None)
    as Heq' by reflexivity.
  rewrite Heq, Heq'. split_and!; [done| |].
  - destruct (restoreBackup_run None [] [] None d f) as [(f' & -> & _)|[_ ->]];
      [left|by right].
    simpl. split_and!; try done.
    change (restored None None [] []) with (bootstrapped (mkDb ∅ ∅ ∅ ∅)).
    destruct (initializeDb_run (bootstrapped (mkDb ∅ ∅ ∅ ∅)) f2) as [[f'' ->]|[_ ->]];
      simpl; [apply bootstrapped_idemp|done].
  - by destruct (restoreBackup_run None [] [] None d None) as [(f' & -> & _)|[? _]].
Qed.

(** ** Backup and restore *)

Lemma getAllExpenses_healthy d :
  getAllExpenses d None = (Ok (map_to_list (expenses d)).*2, d, None).
Proof. reflexivity. Qed.

(** The records of a store, put back under their ids, give the store. *)
Lemma put_all_map_to_list {V} (key : V → string) (m : gmap string V) (l : list V) :
  map_Forall (λ k x, key x = k) m →
  l ≡ₚ (map_to_list m).*2 →
  put_all key l ∅ = m.
Proof.
  intros Hkey Hl.
  assert (key <$> (map_to_list m).*2 = (map_to_list m).*1) as Hkeys.
  { rewrite <- list_fmap_compose. apply list_fmap_ext.
    intros i [k x] Hi. simpl. apply (Hkey k x).
    by apply elem_of_map_to_list, list_elem_of_lookup_2 with i. }
  assert (NoDup (key <$> l)) as Hnd.
  { rewrite Hl, Hkeys. apply NoDup_fst_map_to_list. }
  apply map_eq. intros k. apply option_eq. intros x.
  rewrite (put_all_lookup_NoDup key l k x Hnd), Hl. split.
  - intros [Hin <-]. apply list_elem_of_fmap in Hin as ([k' x'] & -> & Hin).
    apply elem_of_map_to_list in Hin. simpl. by rewrite (Hkey k' x' Hin).
  - intros Hk. split; [|by apply (Hkey k x)].
    apply list_elem_of_fmap. exists (k, x). split; [done|].
    by apply elem_of_map_to_list.
Qed.

(** X6. Round trip. When the database holds the current schema marker and
    its two settings lists, every record under its own id, and the state
    caches the trips and the settings of the database, the payload that
    [collectBackupPayload] builds restores to the very same database. *)
Theorem backup_restore_roundtrip (w : World) (f : fault) :
  keyed_by_id (db w) →
  meta (db w) = {[ "schemaVersion" := SCHEMA_VERSION ]} →
  settings (db w)
  = <["paymentMethods" := Settings.paymentMethods (st_settings (app w))]>
      {[ "categories" := Settings.categories (st_settings (app w)) ]} →
  st_trips (app w) ≡ₚ (map_to_list (trips (db w))).*2 →
  flt w = None →
  ∃ payload w',
    collectBackupPayload w = Ret payload w'
    ∧ w' = w
    ∧ restoreBackup payload (db w) None = (Ok tt, db w, None)
    ∧ (restoreBackup payload (db w) f).1.2 = db w.
Proof.
  intros [Hkt Hke] Hmeta Hsettings Hcache Hflt.
  set (cfg := Some (Payload.mkConfig
                      (Some (Settings.categories (st_settings (app w))))
                      (Some (Settings.paymentMethods (st_settings (app w)))))).
  set (es := (map_to_list (expenses (db w))).*2).
  exists (Payload.mk (Some SCHEMA_VERSION) (Payload.Arr (st_trips (app w)))
            (Payload.Arr es) cfg), w.
  assert (restored (Some SCHEMA_VERSION) cfg (st_trips (app w)) es = db w) as Hsame.
  { unfold restored, cfg, es. simpl.
    rewrite (put_all_map_to_list Trip.id (trips (db w))) by done.
    rewrite (put_all_map_to_list Expense.id (expenses (db w))) by done.
    rewrite <- Hmeta, <- Hsettings. by destruct (db w). }
  split_and!.
  - unfold collectBackupPayload, app_bind, call, get_state, app_ret.
    rewrite Hflt, getAllExpenses_healthy. destruct w as [a d0 fl]. simpl in *.
    by rewrite Hflt.
  - done.
  - destruct (restoreBackup_run (Some SCHEMA_VERSION) (st_trips (app w)) es cfg
                (db w) None) as [(f' & Hrun & Hf')|[? _]]; [|done].
    by rewrite Hrun, Hsame, (Hf' eq_refl).
  - destruct (restoreBackup_run (Some SCHEMA_VERSION) (st_trips (app w)) es cfg
                (db w) f) as [(f' & Hrun & _)|[_ Hrun]]; rewrite Hrun; [|done].
    exact Hsame.
Qed.

(** The scenario, bootstrapped and loaded. *)
Lemma backup_restore_roundtrip_witness :
  ∃ payload,
    status_of (collectBackupPayload scenario_loaded) = Some payload
    ∧ restoreBackup payload (db scenario_loaded) None
      = (Ok tt, db scenario_loaded, None).
Proof.
  destruct (backup_restore_roundtrip scenario_loaded None)
    as (payload & w' & Hc & _ & Hr & _).
  - split; apply (bool_decide_unpack _); by vm_compute.
  - by vm_compute.
  - by vm_compute.
  - assert ((map_to_list (trips (db scenario_loaded))).*2 = st_trips (app scenario_loaded))
      as -> by (by vm_compute). done.
  - by vm_compute.
  - exists payload. split; [by rewrite Hc|exact Hr].
Defined.
(** ** Referential integrity *)

Lemma upsertTrip_run (t : Trip.t) d f :
  (∃ f', upsertTrip t d f = (Ok tt, set_trips <[Trip.id t := t]> d, f')
         ∧ (f = None → f' = None))
  ∨ (f ≠ None ∧ upsertTrip t d f = (Rejected, d, None)).
Proof. apply write_tx_run. Qed.

(** X7. If no expense is without its trip, the same holds after
    [deleteTripCascade], [upsertTrip] and [deleteExpense], whatever their
    outcome, and after [upsertExpense] of an expense whose trip is stored. *)
Theorem no_orphans_kept
    (d : Db) (f : fault) (T id : string) (t : Trip.t) (e : Expense.t) :
  no_orphans d →
  no_orphans (deleteTripCascade T d f).1.2
  ∧ no_orphans (upsertTrip t d f).1.2
  ∧ no_orphans (deleteExpense id d f).1.2
  ∧ (is_Some (trips d !! Expense.tripId e) → no_orphans (upsertExpense e d f).1.2).
Proof.
  intros Hd. split_and!.
  - destruct (deleteTripCascade_run T d f) as [[f' ->]|(_ & f' & ->)]; [|done].
    intros k x Hx. simpl in *. apply map_lookup_filter_Some in Hx as [Hx HT].
    simpl in HT. rewrite lookup_delete_ne by done. by apply (Hd k x).
  - destruct (upsertTrip_run t d f) as [(f' & -> & _)|[_ ->]]; [|done].
    intros k x Hx. simpl in *.
    destruct (decide (Trip.id t = Expense.tripId x)) as [->|Hne].
    + by rewrite lookup_insert_eq.
    + rewrite lookup_insert_ne by done. by apply (Hd k x).
  - unfold deleteExpense.
    destruct (write_tx_run Expenses (set_expenses (delete id)) d f)
      as [(f' & -> & _)|[_ ->]]; [|done].
    intros k x Hx. simpl in *. apply lookup_delete_Some in Hx as [_ Hx].
    by apply (Hd k x).
  - intros He. unfold upsertExpense.
    destruct (write_tx_run Expenses (set_expenses <[Expense.id e := e]>) d f)
      as [(f' & -> & _)|[_ ->]]; [|done].
    intros k x Hx. simpl in *. apply lookup_insert_Some in Hx as [[_ <-]|[_ Hx]]; [done|].
    by apply (Hd k x).
Qed.

(** Deleting the trip of the scenario, which has one expense. *)
Lemma no_orphans_kept_witness :
  no_orphans (db scenario_after)
  ∧ no_orphans (deleteTripCascade "trip_1" (db scenario_after) None).1.2.
Proof.
  assert (no_orphans (db scenario_after)) as H
    by (apply (bool_decide_unpack _); by vm_compute).
  split; [exact H|].
  exact (proj1 (no_orphans_kept (db scenario_after) None "trip_1" "exp_1"
                  scenario_trip
                  (collectExpenseFormData (app scenario_world) scenario_trip
                     scenario_form "exp_1" 0%Z "")
                  H)).
Defined.

(** ** Sorting *)

Section js_sort_facts.
Context {A : Type} (before : A → A → bool).

Lemma sort_insert_perm (x : A) (l : list A) : sort_insert before x l ≡ₚ x :: l.
Proof.
  induction l as [|y l IH]; simpl; [done|].
  destruct (before x y); [done|]. rewrite IH. apply Permutation_swap.
Qed.

Lemma js_sort_perm (l : list A) : js_sort before l ≡ₚ l.
Proof.
  unfold js_sort. induction l as [|x l IH]; simpl; [done|].
  by rewrite sort_insert_perm, IH.
Qed.

(** The comparator decides an order [R] that is transitive. *)
Context (R : A → A → Prop).
Hypothesis before_true : ∀ a b, before a b = true → R a b.
Hypothesis before_false : ∀ a b, before a b = false → R b a.
Hypothesis R_trans : ∀ a b c, R a b → R b c → R a c.

Lemma sort_insert_sorted (x : A) (l : list A) :
  StronglySorted R l → StronglySorted R (sort_insert before x l).
Proof.
  induction 1 as [|y l Hl IH Hy]; simpl.
  - by repeat constructor.
  - destruct (before x y) eqn:Hxy.
    + constructor; [by constructor|]. constructor; [by apply before_true|].
      eapply List.Forall_impl; [|exact Hy]. intros z Hz.
      eapply R_trans; [by apply before_true|done].
    + constructor; [done|].
      rewrite sort_insert_perm. constructor; [by apply before_false|done].
Qed.

Lemma js_sort_sorted (l : list A) : StronglySorted R (js_sort before l).
Proof.
  unfold js_sort. induction l as [|x l IH]; simpl; [constructor|].
  by apply sort_insert_sorted.
Qed.
End js_sort_facts.

(** ** Group totals *)

Lemma total_of_from (items : list Expense.t) (a : Qc) :
  fold_left (λ sum x, sum + num_or0 (Expense.amountBase x)) items a
  = a + total_of items.
Proof.
  unfold total_of. revert a. induction items as [|x items IH]; intros a; simpl.
  - ring.
  - rewrite IH, (IH (0 + _)). ring.
Qed.

Lemma total_of_cons (x : Expense.t) (items : list Expense.t) :
  total_of (x :: items) = num_or0 (Expense.amountBase x) + total_of items.
Proof. unfold total_of at 1. simpl. rewrite total_of_from. ring. Qed.

Lemma map_get_set (k k' : string) (v : Qc) (m : JsMap) :
  map_get k (map_set k' v m) = if decide (k = k') then Some v else map_get k m.
Proof.
  induction m as [|[k0 v0] m IH]; simpl.
  - destruct (decide (k = k')); done.
  - destruct (decide (k' = k0)) as [->|Hne]; simpl.
    + destruct (decide (k = k0)); done.
    + destruct (decide (k = k0)) as [->|Hne'].
      * by rewrite decide_False.
      * exact IH.
Qed.

Lemma map_set_keys (k : string) (v : Qc) (m : JsMap) :
  (map_set k v m).*1 = if decide (k ∈ m.*1) then m.*1 else (m.*1 ++ [k])%list.
Proof.
  induction m as [|[k0 v0] m IH]; [done|].
  cbn [map_set]. destruct (decide (k = k0)) as [->|Hne]; rewrite !fmap_cons; cbn [fst].
  - rewrite decide_True; [done|by apply list_elem_of_here].
  - rewrite IH. destruct (decide (k ∈ m.*1)) as [Hin|Hin].
    + rewrite decide_True; [done|by apply list_elem_of_further].
    + rewrite decide_False; [done|]. by intros [?|?]%elem_of_cons.
Qed.

Lemma map_set_NoDup (k : string) (v : Qc) (m : JsMap) :
  NoDup m.*1 → NoDup (map_set k v m).*1.
Proof.
  intros Hm. rewrite map_set_keys. destruct (decide (k ∈ m.*1)); [done|].
  apply list.NoDup_app. split_and!; [done| |by apply NoDup_singleton].
  intros x Hx ->%list_elem_of_singleton. done.
Qed.

Lemma map_get_elem (k : string) (v : Qc) (m : JsMap) :
  NoDup m.*1 → map_get k m = Some v ↔ (k, v) ∈ m.
Proof.
  induction m as [|[k0 v0] m IH]; intros Hnd.
  - split; [done|]. by intros ?%elem_of_nil.
  - rewrite fmap_cons in Hnd. apply list.NoDup_cons in Hnd as [Hk0 Hnd]. cbn [map_get].
    destruct (decide (k = k0)) as [->|Hne].
    + split.
      * intros [= ->]. by apply list_elem_of_here.
      * intros [[= ->]|Hin]%elem_of_cons; [done|].
        exfalso. apply Hk0. apply list_elem_of_fmap. by exists (k0, v).
    + rewrite (IH Hnd). split.
      * by apply list_elem_of_further.
      * by intros [[= ? ?]|Hin]%elem_of_cons.
Qed.

Lemma filter_key_none {A} (keyOf : A → string) (k : string) (l : list A) :
  k ∉ keyOf <$> l → filter (λ x, keyOf x = k) l = [].
Proof.
  induction l as [|y l IH]; intros Hk; [done|].
  rewrite fmap_cons in Hk. apply not_elem_of_cons in Hk as [Hy Hk].
  rewrite filter_cons_False by done. by apply IH.
Qed.

Section accumulate_facts.
Context (keyOf : Expense.t → string).

Lemma fold_accumulate_NoDup (items : list Expense.t) (m : JsMap) :
  NoDup m.*1 → NoDup (fold_left (accumulate keyOf) items m).*1.
Proof.
  revert m. induction items as [|x items IH]; intros m Hm; simpl; [done|].
  apply IH. by apply map_set_NoDup.
Qed.

Lemma fold_accumulate_get (items : list Expense.t) (m : JsMap) (k : string) :
  map_get k (fold_left (accumulate keyOf) items m)
  = if decide (k ∈ keyOf <$> items)
    then Some (default 0 (map_get k m) + key_total keyOf items k)
    else map_get k m.
Proof.
  revert m. induction items as [|x items IH]; intros m; cbn [fold_left].
  - rewrite decide_False; [done|]. by intros ?%elem_of_nil.
  - rewrite IH, fmap_cons. unfold accumulate. rewrite map_get_set. unfold key_total.
    destruct (decide (k = keyOf x)) as [->|Hne].
    + rewrite filter_cons_True by done. rewrite total_of_cons.
      rewrite (decide_True (P := keyOf x ∈ keyOf x :: _)) by apply list_elem_of_here.
      cbn [default]. destruct (decide (keyOf x ∈ keyOf <$> items)) as [Hin|Hin].
      * unfold id. apply f_equal. ring.
      * unfold id. apply f_equal. rewrite (filter_key_none keyOf (keyOf x) items Hin).
        unfold total_of. simpl. ring.
    + rewrite filter_cons_False by done.
      destruct (decide (k ∈ keyOf <$> items)) as [Hin|Hin].
      * rewrite decide_True; [done|by apply list_elem_of_further].
      * rewrite decide_False; [done|]. by intros [?|?]%elem_of_cons.
Qed.
End accumulate_facts.

Lemma Qc_before_true (a b : string * Qc) :
  bool_decide (b.2 - a.2 ≤ 0) = true → b.2 ≤ a.2.
Proof.
  intros H%bool_decide_eq_true. apply Qcle_minus_iff.
  apply Qcle_minus_iff in H. revert H. to_Q. intros H. lra.
Qed.

Lemma Qc_before_false (a b : string * Qc) :
  bool_decide (b.2 - a.2 ≤ 0) = false → a.2 ≤ b.2.
Proof.
  intros H%bool_decide_eq_false. apply Qcnot_le_lt in H. apply Qclt_le_weak.
  apply Qclt_minus_iff. apply Qclt_minus_iff in H. revert H. to_Q. intros H. lra.
Qed.

(** X8. [aggregateBy] gives one row for each key that occurs among the
    items (an empty key counted as 'Unknown'), the row holds the total of the
    items with that key, no key comes twice, none is empty, and the rows are
    in descending order of their totals. *)
Theorem aggregateBy_rows (items : list Expense.t) (key : Expense.t → string) :
  let keyOf := λ item, key_or_unknown (key item) in
  let rows := aggregateBy items key in
  NoDup rows.*1
  ∧ (∀ k v, (k, v) ∈ rows ↔ k ∈ keyOf <$> items ∧ v = key_total keyOf items k)
  ∧ (∀ k, k ∈ rows.*1 → k ≠ "")
  ∧ StronglySorted (λ a b, b.2 ≤ a.2) rows.
Proof.
  cbv zeta. unfold aggregateBy.
  set (keyOf := λ item, key_or_unknown (key item)).
  set (before := λ a b : string * Qc, bool_decide (b.2 - a.2 ≤ 0)).
  set (m := fold_left (accumulate keyOf) items []).
  assert (NoDup m.*1) as Hm by (apply fold_accumulate_NoDup; constructor).
  assert (∀ k v, (k, v) ∈ js_sort before m
                 ↔ k ∈ keyOf <$> items ∧ v = key_total keyOf items k) as Hrows.
  { intros k v. rewrite (js_sort_perm before m), <- (map_get_elem k v m Hm).
    unfold m. rewrite fold_accumulate_get. simpl.
    destruct (decide (k ∈ keyOf <$> items)) as [Hin|Hin].
    - rewrite Qcplus_0_l. split; [by intros [= <-]|by intros [_ ->]].
    - split; [done|by intros [? _]]. }
  split_and!.
  - by rewrite (js_sort_perm before m).
  - exact Hrows.
  - intros k Hk. apply list_elem_of_fmap in Hk as ([k' v] & -> & Hk).
    apply Hrows in Hk as [Hk _]. apply list_elem_of_fmap in Hk as (item & -> & _).
    unfold keyOf, key_or_unknown. simpl.
    destruct (JsString.truthy (key item)) eqn:Ht; [|done].
    intros Heq. rewrite Heq in Ht. done.
  - apply js_sort_sorted.
    + apply Qc_before_true.
    + apply Qc_before_false.
    + intros a b c Hab Hbc. by etrans.
Qed.
(** ** Order of strings *)

Lemma ltb_leb (s1 s2 : string) : String.ltb s1 s2 = true → String.leb s1 s2 = true.
Proof. unfold String.ltb, String.leb. by destruct (String.compare s1 s2). Qed.

Lemma not_ltb_leb (s1 s2 : string) :
  String.ltb s1 s2 = false → String.leb s2 s1 = true.
Proof.
  unfold String.ltb, String.leb. rewrite (String.compare_antisym s1 s2).
  by destruct (String.compare s2 s1).
Qed.

Lemma leb_trans (s1 s2 s3 : string) :
  String.leb s1 s2 = true → String.leb s2 s3 = true → String.leb s1 s3 = true.
Proof.
  intros H1%Is_true_true H2%Is_true_true. apply Is_true_true.
  exact (transitivity (R := String.le) H1 H2).
Qed.

Lemma leb_neq_ltb (s1 s2 : string) :
  String.leb s1 s2 = true → s1 ≠ s2 → String.ltb s1 s2 = true.
Proof.
  unfold String.ltb, String.leb. intros Hle Hne.
  destruct (String.compare s1 s2) eqn:Hc; [|done..].
  by apply String.compare_eq_iff in Hc.
Qed.

Lemma sorted_keys_strict (rows : JsMap) :
  StronglySorted (λ a b, String.leb a.1 b.1 = true) rows →
  NoDup rows.*1 →
  StronglySorted (λ a b, String.ltb a.1 b.1 = true) rows.
Proof.
  induction 1 as [|a l Hl IH Ha]; intros Hnd; [constructor|].
  rewrite fmap_cons in Hnd. apply list.NoDup_cons in Hnd as [Hnot Hnd].
  constructor; [by apply IH|].
  apply List.Forall_forall. intros b Hb. apply leb_neq_ltb.
  - rewrite List.Forall_forall in Ha. by apply Ha.
  - intros Heq. apply Hnot. rewrite Heq. apply list_elem_of_fmap. exists b.
    split; [done|]. by apply list_elem_of_In.
Qed.

(** X9. [aggregateByDay] gives one row for each day on which an item
    falls, holding the total of the items of that day, in strictly ascending
    order of the days. *)
Theorem aggregateByDay_rows (items : list Expense.t) :
  let rows := aggregateByDay items in
  (∀ day v, (day, v) ∈ rows
            ↔ day ∈ day_of <$> items ∧ v = key_total day_of items day)
  ∧ StronglySorted (λ a b, String.ltb a.1 b.1 = true) rows.
Proof.
  cbv zeta. unfold aggregateByDay. fold day_of.
  change (λ item, day_of item) with day_of.
  set (before := λ a b : string * Qc, String.ltb a.1 b.1).
  set (m := fold_left (accumulate day_of) items []).
  assert (NoDup m.*1) as Hm by (apply fold_accumulate_NoDup; constructor).
  split.
  - intros k v. rewrite (js_sort_perm before m), <- (map_get_elem k v m Hm).
    unfold m. rewrite fold_accumulate_get. simpl.
    destruct (decide (k ∈ day_of <$> items)) as [Hin|Hin].
    + rewrite Qcplus_0_l. split; [by intros [= <-]|by intros [_ ->]].
    + split; [done|by intros [? _]].
  - apply sorted_keys_strict; [|by rewrite (js_sort_perm before m)].
    apply js_sort_sorted.
    + intros a b. apply ltb_leb.
    + intros a b. apply not_ltb_leb.
    + intros a b c. apply leb_trans.
Qed.
